(** * Kasatria 3D visualization: layout engine and transition controller

    A shallow embedding of [src/js/visualization.js] (class
    [VisualizationApp]) and of the parts of the data module (class
    [DataManager]) that work on numbers and text.

    Numbers.  A JavaScript number is modelled as a real number ([R]):
    rounding of IEEE doubles is not modelled.  Array indices and the
    tetrahedron counters are natural numbers, injected with [INR] where the
    source mixes them into arithmetic; [index % c] is [Nat.modulo] and
    [Math.floor(index / c)] is [Nat.div].

    External libraries.  [THREE.Object3D] is a record of a position and a
    rotation; what [lookAt] does to the rotation is a parameter.  The
    global [TWEEN] registry is a list of started tweens.  [Math.random()]
    is a stream of numbers with a cursor kept in the state; the cursor
    counts the calls written in [visualization.js] only, not the draws
    the libraries make for themselves, and the stream is arbitrary. *)

From Stdlib Require Import Reals Lra Lia List String Arith NArith Bool.
Import ListNotations.

Open Scope string_scope.
Open Scope list_scope.
Open Scope R_scope.

(** ** THREE: vectors and objects *)

Module THREE.

Record Vector3 : Type := mkVector3 { x : R; y : R; z : R }.

(** [new THREE.Vector3()] *)
Definition zero : Vector3 := mkVector3 0 0 0.

(** [v.multiplyScalar(s)] *)
Definition multiplyScalar (v : Vector3) (s : R) : Vector3 :=
  mkVector3 (x v * s) (y v * s) (z v * s).

(** Euclidean distance from the origin, [v.length()]. *)
Definition length (v : Vector3) : R :=
  sqrt (x v * x v + y v * y v + z v * z v).

Record Object3D : Type := mkObject3D { position : Vector3; rotation : Vector3 }.

(** [new THREE.Object3D()]: at the origin, not rotated. *)
Definition new_Object3D : Object3D := mkObject3D zero zero.

Definition set_position (o : Object3D) (p : Vector3) : Object3D :=
  mkObject3D p (rotation o).

End THREE.

Import THREE.

(** ** The data records (src: DataManager) *)

Record Item : Type := mkItem {
  id : nat;
  name : string;
  photoUrl : string;
  age : string;
  country : string;
  interest : string;
  netWorth : R;
  initials : string
}.

(** ** Array.prototype.forEach with a result array

    [data.forEach((item, index) => { ...; out.push(f item index) })],
    the callback called in order with a running index. *)

Fixpoint forEach_from {A B : Type} (f : A -> nat -> B) (data : list A) (index : nat)
  : list B :=
  match data with
  | [] => []
  | item :: rest => f item index :: forEach_from f rest (S index)
  end.

Definition forEach_push {A B : Type} (f : A -> nat -> B) (data : list A) : list B :=
  forEach_from f data 0.

(** ** Layout Engine *)

Section Layouts.

(** The Euler angles [object.lookAt(vector)] leaves in [object.rotation],
    from the object's position and the point looked at (three.js). *)
Variable lookAtEuler : Vector3 -> Vector3 -> Vector3.

Definition lookAt (object : Object3D) (vector : Vector3) : Object3D :=
  mkObject3D (position object) (lookAtEuler (position object) vector).

(** *** calculateTableLayout *)

Definition table_object (index : nat) : Object3D :=
  let object := new_Object3D in
  let cols := 20%nat in
  let rows := 10%nat in
  let col := (index mod cols)%nat in
  let row := (index / cols)%nat in
  set_position object
    (mkVector3 (INR col * 160 - (INR cols * 160) / 2)
               (- (INR row * 180) + (INR rows * 180) / 2)
               0).

Definition calculateTableLayout (data : list Item) : list Object3D :=
  forEach_push (fun _ index => table_object index) data.

(** *** calculateSphereLayout *)

Definition sphere_phi (n index : nat) : R :=
  acos (-1 + (2 * INR index) / INR n).

Definition sphere_theta (n index : nat) : R :=
  sqrt (INR n * PI) * sphere_phi n index.

Definition sphere_position (n index : nat) : Vector3 :=
  let radius := 900 in
  let phi := sphere_phi n index in
  let theta := sphere_theta n index in
  mkVector3 (radius * cos theta * sin phi)
            (radius * sin theta * sin phi)
            (radius * cos phi).

Definition sphere_object (n index : nat) : Object3D :=
  let object := set_position new_Object3D (sphere_position n index) in
  let vector := multiplyScalar (position object) 2 in
  lookAt object vector.

Definition calculateSphereLayout (data : list Item) : list Object3D :=
  forEach_push (fun _ index => sphere_object (List.length data) index) data.

(** *** calculateHelixLayout *)

Definition helix_object (index : nat) : Object3D :=
  let radius := 700 in
  let verticalSpacing := 30 in
  let strand := (index mod 2)%nat in
  let strandIndex := (index / 2)%nat in
  let phaseOffset := INR strand * PI in
  let theta := INR strandIndex * (15 / 100) + phaseOffset in
  let y := - (INR strandIndex * verticalSpacing) + 1250 in
  let object :=
    set_position new_Object3D
      (mkVector3 (radius * cos theta) y (radius * sin theta)) in
  let vector :=
    mkVector3 (THREE.x (position object) * 2)
              (THREE.y (position object))
              (THREE.z (position object) * 2) in
  lookAt object vector.

Definition calculateHelixLayout (data : list Item) : list Object3D :=
  forEach_push (fun _ index => helix_object index) data.

(** *** calculateGridLayout *)

Definition grid_object (index : nat) : Object3D :=
  let cols := 10%nat in
  let rows := 4%nat in
  let depth := 5%nat in
  let x := (index mod cols)%nat in
  let layer := (index / cols)%nat in
  let y := (layer / depth)%nat in
  let z := (layer mod depth)%nat in
  set_position new_Object3D
    (mkVector3 (INR x * 200 - (INR cols * 200) / 2)
               (INR y * 200 - (INR rows * 200) / 2)
               (INR z * 200 - (INR depth * 200) / 2)).

Definition calculateGridLayout (data : list Item) : list Object3D :=
  forEach_push (fun _ index => grid_object index) data.

(** *** calculateTetrahedronLayout

    The three counters live outside the callback and are updated by each
    call of it. *)

Record Counters : Type := mkCounters { layer : nat; row : nat; col : nat }.

Definition initial_counters : Counters := mkCounters 1 0 0.

(** "1. Manage the Pyramid Counters". *)
Definition advance (c : Counters) : Counters :=
  let c1 :=
    if (row c <? col c)%nat then mkCounters (layer c) (S (row c)) 0 else c in
  if (layer c1 <=? row c1)%nat then mkCounters (S (layer c1)) 0 0 else c1.

(** "2. Calculate Position", with the counters as they are after the
    advance; the orientation is left as [new THREE.Object3D()] has it. *)
Definition place (c : Counters) : Object3D :=
  let spacing := 180 in
  let height := 160 in
  set_position new_Object3D
    (mkVector3 ((INR (col c) - INR (row c) / 2) * spacing)
               (- (INR (layer c) * height) + 600)
               ((INR (row c) - INR (layer c) / 2) * spacing)).

(** [col++] after the push. *)
Definition next_col (c : Counters) : Counters :=
  mkCounters (layer c) (row c) (S (col c)).

(** The loop; it returns with each object the counters it was placed with. *)
Fixpoint tetrahedron_loop (data : list Item) (c : Counters)
  : list (Counters * Object3D) :=
  match data with
  | [] => []
  | _ :: rest =>
      let c' := advance c in
      (c', place c') :: tetrahedron_loop rest (next_col c')
  end.

Definition calculateTetrahedronLayout (data : list Item) : list Object3D :=
  map snd (tetrahedron_loop data initial_counters).

(** The counters each record was placed with, in order. *)
Definition tetrahedron_counters (data : list Item) : list Counters :=
  map fst (tetrahedron_loop data initial_counters).

(** *** calculateLayouts: the five target arrays of [this.targets] *)

Record Targets : Type := mkTargets {
  table : list Object3D;
  sphere : list Object3D;
  helix : list Object3D;
  grid : list Object3D;
  tetrahedron : list Object3D
}.

Definition empty_targets : Targets := mkTargets [] [] [] [] [].

Definition calculateLayouts (data : list Item) : Targets :=
  mkTargets (calculateTableLayout data)
            (calculateSphereLayout data)
            (calculateHelixLayout data)
            (calculateGridLayout data)
            (calculateTetrahedronLayout data).

End Layouts.

(** ** TWEEN: the global registry of started tweens (tween.js)

    A tween interpolates the properties of one object.  The objects tweened
    here are [object.position] and [object.rotation] of the entry of
    [this.objects] at some index, and the application itself for the tween
    that only redraws.  [transform] empties the registry before it starts
    tweens, so an index always refers to the current [this.objects]. *)

Module TWEEN.

Inductive Easing : Type := Linear_None | Exponential_InOut.

Inductive Subject : Type :=
| PositionOf (index : nat)
| RotationOf (index : nat)
| TheApp.

Record Tween : Type := mkTween {
  subject : Subject;
  to : option Vector3;        (* [None] for the empty object [{}] *)
  duration : R;
  easing : Easing;
  onUpdate_render : bool      (* [.onUpdate(() => this.render())] *)
}.

(** [TWEEN.removeAll()] *)
Definition removeAll (registry : list Tween) : list Tween := [].

(** [tween.start()] adds the tween to the registry; it reads the start
    values from the object and does not write to it. *)
Definition start (t : Tween) (registry : list Tween) : list Tween :=
  registry ++ [t].

End TWEEN.

Import TWEEN.

(** ** JavaScript values and completions, as far as [transform] and
    [changeLayout] meet them *)

Inductive Value : Type :=
| Undefined
| Array (elements : list Object3D)
| Builtin (key : string).      (* a function or object inherited from Object.prototype *)

Inductive Error : Type := TypeError.

Inductive Completion : Type := Normal | Throw (e : Error).

(** ToBoolean: [undefined] is falsy; every array (the empty one too),
    function and object is truthy. *)
Definition truthy (v : Value) : bool :=
  match v with
  | Undefined => false
  | Array _ => true
  | Builtin _ => true
  end.

(** [targets[index]]: an element of the array when the index is in range,
    [undefined] otherwise; the inherited functions and objects have no
    property named by a number. *)
Definition get_index (targets : Value) (index : nat) : option Object3D :=
  match targets with
  | Array elements => nth_error elements index
  | _ => None
  end.

(** The property names every object literal inherits from
    [Object.prototype]. *)
Definition Object_prototype_keys : list string :=
  [ "constructor"; "__proto__"; "hasOwnProperty"; "isPrototypeOf";
    "propertyIsEnumerable"; "toLocaleString"; "toString"; "valueOf";
    "__defineGetter__"; "__defineSetter__"; "__lookupGetter__";
    "__lookupSetter__" ].

(** The five layout kinds, the own properties of [this.targets]. *)
Definition layout_kinds : list string :=
  [ "table"; "sphere"; "helix"; "grid"; "tetrahedron" ].

(** [this.targets[layoutName]]: own properties first, then the prototype
    chain of the object literal. *)
Definition get_property (t : Targets) (layoutName : string) : Value :=
  if String.eqb layoutName "table" then Array (table t)
  else if String.eqb layoutName "sphere" then Array (sphere t)
  else if String.eqb layoutName "helix" then Array (helix t)
  else if String.eqb layoutName "grid" then Array (grid t)
  else if String.eqb layoutName "tetrahedron" then Array (tetrahedron t)
  else if existsb (String.eqb layoutName) Object_prototype_keys
       then Builtin layoutName
  else Undefined.

(** ** The application state *)

Record VisualizationApp : Type := mkApp {
  objects : list Object3D;
  targets : Targets;
  currentLayout : string;
  registry : list Tween;     (* TWEEN's global registry *)
  draws : nat                (* calls of [Math.random()] so far *)
}.

(** The state the constructor leaves. *)
Definition new_VisualizationApp : VisualizationApp :=
  mkApp [] empty_targets "table" [] 0.

Definition set_objects (app : VisualizationApp) (os : list Object3D) :=
  mkApp os (targets app) (currentLayout app) (registry app) (draws app).

Definition set_targets (app : VisualizationApp) (t : Targets) :=
  mkApp (objects app) t (currentLayout app) (registry app) (draws app).

Definition set_currentLayout (app : VisualizationApp) (layoutName : string) :=
  mkApp (objects app) (targets app) layoutName (registry app) (draws app).

Definition set_registry (app : VisualizationApp) (r : list Tween) :=
  mkApp (objects app) (targets app) (currentLayout app) r (draws app).

Section Controller.

Variable lookAtEuler : Vector3 -> Vector3 -> Vector3.

(** The numbers [Math.random()] returns, in the order of the calls. *)
Variable random : nat -> R.

Definition Math_random (app : VisualizationApp) : R * VisualizationApp :=
  (random (draws app),
   mkApp (objects app) (targets app) (currentLayout app) (registry app)
         (S (draws app))).

Definition TWEEN_start (t : Tween) (app : VisualizationApp) : VisualizationApp :=
  set_registry app (TWEEN.start t (registry app)).

(** *** transform *)

(** The body of the callback once [target] is known: the position tween,
    then the rotation tween.  The destination values are read from the
    target before [Math.random()] is called. *)
Definition start_pair (index : nat) (target : Object3D) (duration : R)
  (app : VisualizationApp) : VisualizationApp :=
  let to_position := position target in
  let (r1, app1) := Math_random app in
  let app2 :=
    TWEEN_start (mkTween (PositionOf index) (Some to_position)
                         (r1 * duration + duration) Exponential_InOut false)
                app1 in
  let to_rotation := rotation target in
  let (r2, app3) := Math_random app2 in
  TWEEN_start (mkTween (RotationOf index) (Some to_rotation)
                       (r2 * duration + duration) Exponential_InOut false)
              app3.

(** [this.objects.forEach((object, index) => ...)]: reading
    [target.position] of an undefined [target] throws and ends the loop,
    with what was started before left in the registry. *)
Fixpoint transform_forEach (objs : list Object3D) (index : nat)
  (targets : Value) (duration : R) (app : VisualizationApp)
  : VisualizationApp * Completion :=
  match objs with
  | [] => (app, Normal)
  | _ :: rest =>
      match get_index targets index with
      | None => (app, Throw TypeError)
      | Some target =>
          transform_forEach rest (S index) targets duration
            (start_pair index target duration app)
      end
  end.

Definition transform (targets : Value) (duration : R) (app : VisualizationApp)
  : VisualizationApp * Completion :=
  let app0 := set_registry app (TWEEN.removeAll (registry app)) in
  match transform_forEach (objects app0) 0 targets duration app0 with
  | (app1, Normal) =>
      (TWEEN_start (mkTween TheApp None (duration * 2) Linear_None true) app1,
       Normal)
  | (app1, Throw e) => (app1, Throw e)
  end.

(** *** changeLayout *)

Definition changeLayout (layoutName : string) (app : VisualizationApp)
  : VisualizationApp * Completion :=
  if truthy (get_property (targets app) layoutName) then
    transform (get_property (targets app) layoutName) 2000
              (set_currentLayout app layoutName)
  else (app, Normal).

(** *** createObjects

    The cards ([createElementCard]) and the scene graph are not part of
    the state; a new [CSS3DObject] is an [Object3D] with no rotation. *)

Definition create_object (app : VisualizationApp) : VisualizationApp :=
  let (rx, app1) := Math_random app in
  let (ry, app2) := Math_random app1 in
  let (rz, app3) := Math_random app2 in
  let object :=
    set_position new_Object3D
      (mkVector3 (rx * 4000 - 2000) (ry * 4000 - 2000) (rz * 4000 - 2000)) in
  set_objects app3 (objects app3 ++ [object]).

Fixpoint create_forEach (data : list Item) (app : VisualizationApp)
  : VisualizationApp :=
  match data with
  | [] => app
  | _ :: rest => create_forEach rest (create_object app)
  end.

Definition createObjects (data : list Item) (app : VisualizationApp)
  : VisualizationApp * Completion :=
  let app1 := set_objects app [] in
  let app2 := create_forEach data app1 in
  let app3 := set_targets app2 (calculateLayouts lookAtEuler data) in
  transform (Array (table (targets app3))) 2000 app3.

End Controller.

(** ** What the claims speak about, in the spec's words *)

(** The counters record [i] of the tetrahedron layout is placed with: the
    advance rule applied before each placement, [col + 1] after it. *)
Fixpoint tetrahedron_counters_at (i : nat) : Counters :=
  match i with
  | O => advance initial_counters
  | S j => advance (next_col (tetrahedron_counters_at j))
  end.

(** The counters of the [i]-th entry, when the loop starts from [c]. *)
Fixpoint counters_from (c : Counters) (i : nat) : Counters :=
  match i with
  | O => advance c
  | S j => counters_from (next_col (advance c)) j
  end.

(** The grid indices recovered from a position by inverting the centering
    formula [coord = idx*200 - (count*200)/2], counts 10, 4 and 5. *)
Definition grid_indices_of (p : Vector3) : R * R * R :=
  ((x p + (10 * 200) / 2) / 200,
   (y p + (4 * 200) / 2) / 200,
   (z p + (5 * 200) / 2) / 200).

(** The position and rotation tweens of a transition towards [targets],
    for the objects from [index] on, when [d] calls of [Math.random()]
    were made before. *)
Fixpoint pair_tweens (random : nat -> R) (duration : R)
  (targets : list Object3D) (index d : nat) : list Tween :=
  match targets with
  | [] => []
  | target :: rest =>
      mkTween (PositionOf index) (Some (position target))
              (random d * duration + duration) Exponential_InOut false
      :: mkTween (RotationOf index) (Some (rotation target))
                 (random (S d) * duration + duration) Exponential_InOut false
      :: pair_tweens random duration rest (S index) (S (S d))
  end.

(** The tween that redraws the scene for twice the base duration. *)
Definition driver_tween (duration : R) : Tween :=
  mkTween TheApp None (duration * 2) Linear_None true.

(** The claim on calls of [transform] with arrays of different lengths, at
    one call: the call fails, nothing is scheduled, no object is changed. *)
Definition mismatch_rejected (random : nat -> R) (elements : list Object3D)
  (duration : R) (app : VisualizationApp) : Prop :=
  let r := transform random (Array elements) duration app in
  (exists e, snd r = Throw e)
  /\ registry (fst r) = []
  /\ objects (fst r) = objects app.

(** The claim on [changeLayout] with a name that is not a layout kind, at
    one call: no error, and the state as it was. *)
Definition unknown_layout_ignored (random : nat -> R) (layoutName : string)
  (app : VisualizationApp) : Prop :=
  let r := changeLayout random layoutName app in
  snd r = Normal
  /\ currentLayout (fst r) = currentLayout app
  /\ objects (fst r) = objects app.

(** A coordinate [Math.random() * 4000 - 2000] can take. *)
Definition in_start_box (p : Vector3) : Prop :=
  (-2000 <= x p < 2000) /\ (-2000 <= y p < 2000) /\ (-2000 <= z p < 2000).

(** The objects [createObjects] makes for [data], when [d] calls of
    [Math.random()] were made before: three draws per object. *)
Fixpoint new_objects (random : nat -> R) (data : list Item) (d : nat)
  : list Object3D :=
  match data with
  | [] => []
  | _ :: rest =>
      mkObject3D (mkVector3 (random d * 4000 - 2000)
                            (random (S d) * 4000 - 2000)
                            (random (S (S d)) * 4000 - 2000))
                 zero
      :: new_objects random rest (S (S (S d)))
  end.

(** ** The tetrahedron as numbers

    [triangular k] records fill a layer of [k] rows, [tetrahedral k]
    records fill the first [k] layers. *)

Fixpoint triangular (k : nat) : nat :=
  match k with
  | O => O
  | S j => (S j + triangular j)%nat
  end.

Fixpoint tetrahedral (k : nat) : nat :=
  match k with
  | O => O
  | S j => (triangular (S j) + tetrahedral j)%nat
  end.

(** The number of records placed before the one with counters [c], when
    layers, rows and columns are filled in order. *)
Definition records_before (c : Counters) : nat :=
  (tetrahedral (layer c - 1) + triangular (row c) + col c)%nat.

(** ** DataManager (src/unnamed/part_001) *)

(** *** getColorClass

    The argument is a number; NaN is outside this model. *)
Definition getColorClass (netWorth : R) : string :=
  if Rlt_dec netWorth 100000 then "low-worth"
  else if Rle_dec netWorth 200000 then "medium-worth"
  else "high-worth".

(** [Math.floor] *)
Definition Math_floor (v : R) : R := IZR (Zfloor v).

(** *** loadPlaceholderData: the net worth of one item

    [rand] is the draw that picks the bracket, [r] the draw inside it. *)
Definition placeholder_netWorth (rand r : R) : R :=
  if Rlt_dec rand (33 / 100) then Math_floor (r * 99000) + 1000
  else if Rlt_dec rand (66 / 100) then Math_floor (r * 100000) + 100000
  else Math_floor (r * 800000) + 200000.

(** *** parseCSV

    A JavaScript string is the list of its UTF-16 code units. *)

Definition code_unit : Type := N.

Definition LF : code_unit := 10%N.
Definition QUOTE : code_unit := 34%N.
Definition COMMA : code_unit := 44%N.

(** The code units [String.prototype.trim] strips: WhiteSpace and
    LineTerminator of the language specification. *)
Definition white_space : list code_unit :=
  [ 9; 10; 11; 12; 13; 32; 160; 5760;
    8192; 8193; 8194; 8195; 8196; 8197; 8198; 8199; 8200; 8201; 8202;
    8232; 8233; 8239; 8287; 12288; 65279 ]%N.

Definition isWhiteSpace (c : code_unit) : bool :=
  existsb (N.eqb c) white_space.

Fixpoint trimStart (s : list code_unit) : list code_unit :=
  match s with
  | [] => []
  | c :: rest => if isWhiteSpace c then trimStart rest else s
  end.

(** [s.trim()] *)
Definition trim (s : list code_unit) : list code_unit :=
  rev (trimStart (rev (trimStart s))).

(** [s.split('\n')]: the pieces between line feeds, one more than there
    are line feeds. *)
Fixpoint split_lines (s : list code_unit) : list (list code_unit) :=
  match s with
  | [] => [[]]
  | c :: rest =>
      if N.eqb c LF then [] :: split_lines rest
      else match split_lines rest with
           | [] => [[c]]
           | line :: lines => (c :: line) :: lines
           end
  end.

(** The loop over the characters of one line, with [row], [current] and
    [inQuotes] as they stand; after the last character the current field
    is pushed. *)
Fixpoint parse_line (line : list code_unit) (fields : list (list code_unit))
  (current : list code_unit) (inQuotes : bool) : list (list code_unit) :=
  match line with
  | [] => fields ++ [trim current]
  | char :: rest =>
      if N.eqb char QUOTE then parse_line rest fields current (negb inQuotes)
      else if N.eqb char COMMA && negb inQuotes
           then parse_line rest (fields ++ [trim current]) [] inQuotes
      else parse_line rest fields (current ++ [char]) inQuotes
  end.

(** The loop over the lines: a line that trims to the empty string is
    skipped. *)
Fixpoint parse_lines (lines : list (list code_unit))
  : list (list (list code_unit)) :=
  match lines with
  | [] => []
  | line :: rest =>
      match trim line with
      | [] => parse_lines rest
      | _ :: _ => parse_line line [] [] false :: parse_lines rest
      end
  end.

Definition parseCSV (csvText : list code_unit) : list (list (list code_unit)) :=
  parse_lines (split_lines csvText).

(** A writer for [parseCSV]: every field between quotes, the fields of a
    row joined by commas, the rows by line feeds. *)
Fixpoint join (sep : code_unit) (pieces : list (list code_unit))
  : list code_unit :=
  match pieces with
  | [] => []
  | [p] => p
  | p :: rest => p ++ sep :: join sep rest
  end.

Definition quote_field (field : list code_unit) : list code_unit :=
  QUOTE :: field ++ [QUOTE].

Definition write_row (fields : list (list code_unit)) : list code_unit :=
  join COMMA (map quote_field fields).

Definition write_csv (rows : list (list (list code_unit))) : list code_unit :=
  join LF (map write_row rows).

(** A field the writer can carry: no quote, no line feed, nothing for
    [trim] to strip. *)
Definition clean_field (field : list code_unit) : Prop :=
  ~ In QUOTE field /\ ~ In LF field /\ trim field = field.

(** The first code unit, if there is one, is not white space. *)
Definition head_not_white (s : list code_unit) : Prop :=
  match s with
  | [] => True
  | c :: _ => isWhiteSpace c = false
  end.

(** What makes a row writable: at least one field, every field clean. *)
Definition writable_row (fields : list (list code_unit)) : Prop :=
  fields <> [] /\ Forall clean_field fields.

(** ** Sample inputs *)

Definition sample_item (k : nat) (who : string) : Item :=
  mkItem k who "https://via.placeholder.com/60" "30" "MY" "Hiking" 150000 "AB".

Definition at_point (px py pz : R) : Object3D :=
  mkObject3D (mkVector3 px py pz) zero.

(** A stand-in for three.js' [lookAt] and a constant [Math.random()]. *)
Definition flat_lookAt : Vector3 -> Vector3 -> Vector3 := fun _ _ => zero.

Definition always_half : nat -> R := fun _ => 1 / 2.

(** Three managed objects, no tween running. *)
Definition app_of_three : VisualizationApp :=
  mkApp [at_point 1 2 3; at_point 4 5 6; at_point 7 8 9]
        (calculateLayouts flat_lookAt
           [sample_item 1 "Alex Smith"; sample_item 2 "Riley Jones";
            sample_item 3 "Quinn Davis"])
        "table" [] 0.

Definition two_targets : list Object3D := [at_point 10 0 0; at_point 20 0 0].

(** ** forEach *)

Section ForEach.

Context {A B : Type}.

Lemma forEach_from_length (f : A -> nat -> B) (data : list A) :
  forall k, List.length (forEach_from f data k) = List.length data.
Proof.
  induction data as [|a data IH]; intro k; simpl; [reflexivity|].
  now rewrite IH.
Qed.

Lemma forEach_from_nth (f : A -> nat -> B) (data : list A) :
  forall k i,
    nth_error (forEach_from f data k) i
    = option_map (fun item => f item (k + i)%nat) (nth_error data i).
Proof.
  induction data as [|a data IH]; intros k i.
  - destruct i; reflexivity.
  - destruct i as [|i]; simpl.
    + now rewrite Nat.add_0_r.
    + rewrite IH. now rewrite Nat.add_succ_r.
Qed.

(** A callback that does not read the item gives the same array on any
    two arrays of one length. *)
Lemma forEach_from_blind {A' : Type} (g : nat -> B) (d1 : list A) (d2 : list A') :
  List.length d1 = List.length d2 ->
  forall k,
    forEach_from (fun _ index => g index) d1 k
    = forEach_from (fun _ index => g index) d2 k.
Proof.
  revert d2. induction d1 as [|a d1 IH]; intros [|b d2] Hlen k;
    simpl in *; try discriminate; [reflexivity|].
  f_equal. apply IH. now injection Hlen.
Qed.

Lemma forEach_push_index (g : nat -> B) (data : list A) (i : nat) :
  nth_error (forEach_push (fun _ index => g index) data) i
  = if (i <? List.length data)%nat then Some (g i) else None.
Proof.
  unfold forEach_push. rewrite forEach_from_nth. simpl.
  destruct (Nat.ltb_spec i (List.length data)) as [Hlt|Hge].
  - destruct (nth_error data i) eqn:E; [reflexivity|].
    apply nth_error_None in E. lia.
  - apply nth_error_None in Hge. now rewrite Hge.
Qed.

End ForEach.

(** ** The tetrahedron loop *)

Lemma tetrahedron_loop_length (data : list Item) :
  forall c, List.length (tetrahedron_loop data c) = List.length data.
Proof.
  induction data as [|a data IH]; intro c; simpl; [reflexivity|].
  now rewrite IH.
Qed.

Lemma tetrahedron_loop_blind (d1 d2 : list Item) :
  List.length d1 = List.length d2 ->
  forall c, tetrahedron_loop d1 c = tetrahedron_loop d2 c.
Proof.
  revert d2. induction d1 as [|a d1 IH]; intros [|b d2] Hlen c;
    simpl in *; try discriminate; [reflexivity|].
  f_equal. apply IH. now injection Hlen.
Qed.

Lemma tetrahedron_loop_placed (data : list Item) (c : Counters) :
  map snd (tetrahedron_loop data c) = map place (map fst (tetrahedron_loop data c)).
Proof.
  revert c. induction data as [|a data IH]; intro c; simpl; [reflexivity|].
  now rewrite IH.
Qed.

Lemma counters_from_succ (i : nat) :
  forall c, counters_from c (S i) = advance (next_col (counters_from c i)).
Proof.
  induction i as [|i IH]; intro c; [reflexivity|].
  change (counters_from c (S (S i)))
    with (counters_from (next_col (advance c)) (S i)).
  now rewrite IH.
Qed.

Lemma counters_from_initial (i : nat) :
  counters_from initial_counters i = tetrahedron_counters_at i.
Proof.
  induction i as [|i IH]; [reflexivity|].
  rewrite counters_from_succ, IH. reflexivity.
Qed.

Lemma tetrahedron_loop_nth (data : list Item) :
  forall c i,
    nth_error (tetrahedron_loop data c) i
    = if (i <? List.length data)%nat
      then Some (counters_from c i, place (counters_from c i))
      else None.
Proof.
  induction data as [|a data IH]; intros c i.
  - destruct i; reflexivity.
  - destruct i as [|i]; [reflexivity|].
    simpl nth_error. rewrite IH. reflexivity.
Qed.

(** ** Layout Engine: sizes, index alignment, independence of the records *)

Section LayoutFacts.

Variable lookAtEuler : Vector3 -> Vector3 -> Vector3.

Lemma calculateTableLayout_nth (data : list Item) (i : nat) :
  nth_error (calculateTableLayout data) i
  = if (i <? List.length data)%nat then Some (table_object i) else None.
Proof. apply forEach_push_index. Qed.

Lemma calculateSphereLayout_nth (data : list Item) (i : nat) :
  nth_error (calculateSphereLayout lookAtEuler data) i
  = if (i <? List.length data)%nat
    then Some (sphere_object lookAtEuler (List.length data) i) else None.
Proof.
  unfold calculateSphereLayout.
  apply (forEach_push_index (sphere_object lookAtEuler (List.length data))).
Qed.

Lemma calculateHelixLayout_nth (data : list Item) (i : nat) :
  nth_error (calculateHelixLayout lookAtEuler data) i
  = if (i <? List.length data)%nat
    then Some (helix_object lookAtEuler i) else None.
Proof. apply (forEach_push_index (helix_object lookAtEuler)). Qed.

Lemma calculateGridLayout_nth (data : list Item) (i : nat) :
  nth_error (calculateGridLayout data) i
  = if (i <? List.length data)%nat then Some (grid_object i) else None.
Proof. apply forEach_push_index. Qed.

Lemma calculateTetrahedronLayout_nth (data : list Item) (i : nat) :
  nth_error (calculateTetrahedronLayout data) i
  = if (i <? List.length data)%nat
    then Some (place (tetrahedron_counters_at i)) else None.
Proof.
  unfold calculateTetrahedronLayout.
  rewrite nth_error_map, tetrahedron_loop_nth, counters_from_initial.
  now destruct (i <? List.length data)%nat.
Qed.

(** C6.  For every record sequence (of any length [n >= 0]) each of the
    five target arrays computed by [calculateLayouts] has exactly [n]
    entries, and entry [i] is the transform computed for record [i]: the
    table, sphere, helix and grid object of index [i], and the
    tetrahedron object placed with the counters of the [i]-th step. *)
Theorem calculateLayouts_length_aligned (data : list Item) :
  let t := calculateLayouts lookAtEuler data in
  let n := List.length data in
  (List.length (table t) = n
   /\ List.length (sphere t) = n
   /\ List.length (helix t) = n
   /\ List.length (grid t) = n
   /\ List.length (tetrahedron t) = n)
  /\ forall i : nat,
      let at_index (o : Object3D) :=
        if (i <? n)%nat then Some o else None in
      nth_error (table t) i = at_index (table_object i)
      /\ nth_error (sphere t) i = at_index (sphere_object lookAtEuler n i)
      /\ nth_error (helix t) i = at_index (helix_object lookAtEuler i)
      /\ nth_error (grid t) i = at_index (grid_object i)
      /\ nth_error (tetrahedron t) i
         = at_index (place (tetrahedron_counters_at i)).
Proof.
  cbv zeta. split.
  - simpl. unfold calculateTableLayout, calculateSphereLayout,
      calculateHelixLayout, calculateGridLayout, calculateTetrahedronLayout,
      forEach_push.
    rewrite !forEach_from_length, length_map, tetrahedron_loop_length.
    repeat split.
  - intro i. simpl.
    rewrite calculateTableLayout_nth, calculateSphereLayout_nth,
      calculateHelixLayout_nth, calculateGridLayout_nth,
      calculateTetrahedronLayout_nth.
    repeat split.
Qed.

(** C7.  Two record sequences of equal length get identical target
    arrays from all five layout functions, whatever the records hold. *)
Theorem calculateLayouts_blind (d1 d2 : list Item) :
  List.length d1 = List.length d2 ->
  calculateLayouts lookAtEuler d1 = calculateLayouts lookAtEuler d2.
Proof.
  intro Hlen. unfold calculateLayouts. f_equal.
  - apply (forEach_from_blind table_object d1 d2 Hlen).
  - unfold calculateSphereLayout, forEach_push. rewrite Hlen.
    apply (forEach_from_blind
             (sphere_object lookAtEuler (List.length d2)) d1 d2 Hlen).
  - apply (forEach_from_blind (helix_object lookAtEuler) d1 d2 Hlen).
  - apply (forEach_from_blind grid_object d1 d2 Hlen).
  - unfold calculateTetrahedronLayout.
    now rewrite (tetrahedron_loop_blind d1 d2 Hlen).
Qed.

End LayoutFacts.

(** ** Table layout *)

Lemma table_object_formula (i : nat) :
  table_object i
  = mkObject3D
      (mkVector3 (INR (i mod 20) * 160 - (20 * 160) / 2)
                 (- (INR (i / 20) * 180) + (10 * 180) / 2)
                 0)
      zero.
Proof.
  unfold table_object, set_position, new_Object3D. cbn [rotation].
  rewrite (INR_IZR_INZ 20), (INR_IZR_INZ 10). reflexivity.
Qed.

(** C9.  The table layout puts record [i] at column [i mod 20] and row
    [floor(i/20)], at [x = col*160 - (20*160)/2],
    [y = -(row*180) + (10*180)/2], [z = 0], with no rotation.  With 20
    records, the indices 0..19 are all in row 0, [y] is the same for all of
    them, [x] starts at [-(20*160)/2] and grows by 160 per index. *)
Theorem table_layout_positions (data : list Item) :
  (forall i : nat,
      nth_error (calculateTableLayout data) i
      = if (i <? List.length data)%nat
        then Some (mkObject3D
                     (mkVector3 (INR (i mod 20) * 160 - (20 * 160) / 2)
                                (- (INR (i / 20) * 180) + (10 * 180) / 2)
                                0)
                     zero)
        else None)
  /\ (List.length data = 20%nat ->
      forall i : nat, (i < 20)%nat ->
        exists o : Object3D,
          nth_error (calculateTableLayout data) i = Some o
          /\ (i / 20 = 0)%nat
          /\ y (position o) = (10 * 180) / 2
          /\ x (position o) = - ((20 * 160) / 2) + 160 * INR i
          /\ z (position o) = 0
          /\ rotation o = zero).
Proof.
  split.
  - intro i. rewrite calculateTableLayout_nth, table_object_formula.
    reflexivity.
  - intros Hlen i Hi. exists (table_object i).
    rewrite calculateTableLayout_nth, Hlen.
    apply Nat.ltb_lt in Hi as Hb. rewrite Hb.
    apply Nat.ltb_lt in Hb.
    rewrite table_object_formula. cbn [position rotation x y z].
    rewrite (Nat.div_small i 20 Hi), (Nat.mod_small i 20 Hi).
    cbn [INR]. repeat split; lra.
Qed.

(** ** Grid layout *)

Lemma grid_object_formula (i : nat) :
  grid_object i
  = mkObject3D
      (mkVector3 (INR (i mod 10) * 200 - (10 * 200) / 2)
                 (INR ((i / 10) / 5) * 200 - (4 * 200) / 2)
                 (INR ((i / 10) mod 5) * 200 - (5 * 200) / 2))
      zero.
Proof.
  unfold grid_object, set_position, new_Object3D. cbn [rotation].
  rewrite (INR_IZR_INZ 10), (INR_IZR_INZ 4), (INR_IZR_INZ 5). reflexivity.
Qed.

(** C5.  For every index [i], inverting the centering formula on the
    position the grid layout gives record [i] recovers exactly
    [(i mod 10, floor(floor(i/10)/5), floor(i/10) mod 5)]. *)
Theorem grid_layout_inverts (data : list Item) (i : nat) (o : Object3D) :
  nth_error (calculateGridLayout data) i = Some o ->
  grid_indices_of (position o)
  = (INR (i mod 10), INR ((i / 10) / 5), INR ((i / 10) mod 5)).
Proof.
  rewrite calculateGridLayout_nth.
  destruct (i <? List.length data)%nat; [|discriminate].
  intro H. injection H as <-.
  rewrite grid_object_formula.
  unfold grid_indices_of. cbn [position x y z].
  f_equal; [f_equal|]; field.
Qed.

(** ** Tetrahedron layout *)

(** C4.  With 10 records the tetrahedron layout, advancing its counters by
    the rule of [advance] before each placement and by [col + 1] after it,
    puts record 0 in layer 1, records 1-3 in layer 2 and records 4-9 in
    layer 3, and every record at [x = (col - row/2)*180],
    [y = -(layer*160) + 600], [z = (row - layer/2)*180] for the counters it
    was placed with. *)
Theorem tetrahedron_layout_ten (data : list Item) :
  List.length data = 10%nat ->
  tetrahedron_counters data
  = [ mkCounters 1 0 0;
      mkCounters 2 0 0; mkCounters 2 1 0; mkCounters 2 1 1;
      mkCounters 3 0 0; mkCounters 3 1 0; mkCounters 3 1 1;
      mkCounters 3 2 0; mkCounters 3 2 1; mkCounters 3 2 2 ]
  /\ map layer (tetrahedron_counters data)
     = [1; 2; 2; 2; 3; 3; 3; 3; 3; 3]%nat
  /\ tetrahedron_counters data = map tetrahedron_counters_at (seq 0 10)
  /\ calculateTetrahedronLayout data
     = map (fun c =>
              mkObject3D
                (mkVector3 ((INR (col c) - INR (row c) / 2) * 180)
                           (- (INR (layer c) * 160) + 600)
                           ((INR (row c) - INR (layer c) / 2) * 180))
                zero)
           (tetrahedron_counters data).
Proof.
  intro Hlen.
  assert (Hc : tetrahedron_counters data
               = [ mkCounters 1 0 0;
                   mkCounters 2 0 0; mkCounters 2 1 0; mkCounters 2 1 1;
                   mkCounters 3 0 0; mkCounters 3 1 0; mkCounters 3 1 1;
                   mkCounters 3 2 0; mkCounters 3 2 1; mkCounters 3 2 2 ]).
  { do 10 (destruct data as [|? data]; [discriminate Hlen|]).
    destruct data; [reflexivity|discriminate Hlen]. }
  split; [exact Hc|]. split; [now rewrite Hc|]. split; [now rewrite Hc|].
  unfold calculateTetrahedronLayout, tetrahedron_counters.
  apply tetrahedron_loop_placed.
Qed.

(** An eleventh record opens layer 4. *)
Example tetrahedron_eleventh_record :
  tetrahedron_counters_at 10 = mkCounters 4 0 0.
Proof. reflexivity. Qed.

(** Layer [k] is left after [k (k + 1) / 2] placements: the sizes 1, 3, 6
    and 10 of the first four layers. *)
Example tetrahedron_layer_sizes :
  map (fun i => layer (tetrahedron_counters_at i)) (seq 0 21)
  = (repeat 1 1 ++ repeat 2 3 ++ repeat 3 6 ++ repeat 4 10 ++ [5])%nat.
Proof. reflexivity. Qed.

(** ** Sphere layout *)

Lemma sphere_position_norm (n i : nat) :
  THREE.length (sphere_position n i) = 900.
Proof.
  unfold THREE.length, sphere_position. cbn [x y z].
  set (phi := sphere_phi n i). set (theta := sphere_theta n i).
  assert (Hp := sin2_cos2 phi). assert (Ht := sin2_cos2 theta).
  unfold Rsqr in Hp, Ht.
  replace (900 * cos theta * sin phi * (900 * cos theta * sin phi)
           + 900 * sin theta * sin phi * (900 * sin theta * sin phi)
           + 900 * cos phi * (900 * cos phi))
    with (900 * 900
          * ((sin theta * sin theta + cos theta * cos theta)
             * (sin phi * sin phi)
             + cos phi * cos phi))
    by ring.
  rewrite Ht, Rmult_1_l, Hp, Rmult_1_r.
  apply sqrt_square. lra.
Qed.

Lemma acos_minus_one : acos (-1) = PI.
Proof.
  replace (-1) with (- (1)) by lra.
  rewrite acos_opp, acos_1. lra.
Qed.

Lemma sphere_phi_single : sphere_phi 1 0 = PI.
Proof.
  unfold sphere_phi. cbn [INR].
  replace (-1 + 2 * 0 / 1) with (-1) by lra.
  exact acos_minus_one.
Qed.

Lemma sphere_theta_single : sphere_theta 1 0 = sqrt PI * PI.
Proof.
  unfold sphere_theta. rewrite sphere_phi_single. cbn [INR].
  now rewrite Rmult_1_l.
Qed.

Lemma sphere_position_single : sphere_position 1 0 = mkVector3 0 0 (-900).
Proof.
  unfold sphere_position.
  rewrite sphere_phi_single, sin_PI, cos_PI.
  f_equal; ring.
Qed.

Section SphereFacts.

Variable lookAtEuler : Vector3 -> Vector3 -> Vector3.

(** X19.  With real arithmetic in place of the code's doubles, every
    position of the sphere layout is at distance exactly 900 from the
    origin.  Each object looks at the point [(2x, 2y, 2z)], twice its own
    position. *)
Theorem sphere_layout_on_sphere (data : list Item) (i : nat) (o : Object3D) :
  nth_error (calculateSphereLayout lookAtEuler data) i = Some o ->
  THREE.length (position o) = 900
  /\ o = lookAt lookAtEuler
           (set_position new_Object3D (position o))
           (mkVector3 (x (position o) * 2) (y (position o) * 2)
                      (z (position o) * 2)).
Proof.
  rewrite calculateSphereLayout_nth.
  destruct (i <? List.length data)%nat; [|discriminate].
  intro H. injection H as <-.
  assert (Hp : position (sphere_object lookAtEuler (List.length data) i)
               = sphere_position (List.length data) i) by reflexivity.
  split.
  - rewrite Hp. apply sphere_position_norm.
  - reflexivity.
Qed.

(** C3, as the code has it.  The sphere layout returns for no record and
    for one record: the empty array, and one object.  The divisor
    [data.length] is 1 for the single record, where [phi] is [acos(-1)],
    that is pi, and [theta] is [sqrt(pi) * pi]; the record is placed at
    the pole [phi = pi], the point (0, 0, -900), looking at
    (0, 0, -1800). *)
Theorem sphere_layout_degenerate :
  calculateSphereLayout lookAtEuler [] = []
  /\ sphere_phi 1 0 = PI
  /\ sphere_theta 1 0 = sqrt PI * PI
  /\ forall item : Item,
      calculateSphereLayout lookAtEuler [item]
      = [ lookAt lookAtEuler
            (mkObject3D (mkVector3 0 0 (-900)) zero)
            (mkVector3 0 0 (-1800)) ].
Proof.
  split; [reflexivity|].
  split; [exact sphere_phi_single|].
  split; [exact sphere_theta_single|].
  intro item.
  unfold calculateSphereLayout, forEach_push. cbn [forEach_from List.length].
  unfold sphere_object, set_position. cbn [position rotation new_Object3D].
  rewrite sphere_position_single.
  unfold multiplyScalar. cbn [x y z].
  repeat f_equal; ring.
Qed.

End SphereFacts.

(** C3, as the spec has it, fails: with a single record the angle [phi] is
    pi and not 0 (and [theta] is not 0 either). *)
Lemma sphere_single_record_not_at_phi_zero :
  ~ (sphere_phi 1 0 = 0 /\ sphere_theta 1 0 = 0).
Proof.
  intros [Hphi _]. rewrite sphere_phi_single in Hphi.
  pose proof PI_RGT_0. lra.
Qed.

(** ** Transition Controller *)

Lemma pair_tweens_length (random : nat -> R) (duration : R)
  (targets : list Object3D) :
  forall index d,
    List.length (pair_tweens random duration targets index d)
    = (2 * List.length targets)%nat.
Proof.
  induction targets as [|t targets IH]; intros index d; simpl; [reflexivity|].
  rewrite IH. lia.
Qed.

Lemma skipn_nth_error_cons {A : Type} (l : list A) :
  forall i a, nth_error l i = Some a -> skipn i l = a :: skipn (S i) l.
Proof.
  induction l as [|b l IH]; intros [|i] a H; simpl in *; try discriminate.
  - now injection H as ->.
  - now apply IH.
Qed.

Lemma skipn_nth_error_nil {A : Type} (l : list A) :
  forall i, nth_error l i = None -> skipn i l = [].
Proof.
  intros i H. apply skipn_all2. now apply nth_error_None.
Qed.

Section ControllerFacts.

Variable random : nat -> R.

(** What the loop of [transform] leaves, for a target array: the pairs
    of tweens for the objects that have a target, and an error when an
    object has none. *)
Lemma transform_forEach_array (elements : list Object3D) (duration : R)
  (objs : list Object3D) :
  forall index app,
    let avail := firstn (List.length objs) (skipn index elements) in
    transform_forEach random objs index (Array elements) duration app
    = (mkApp (objects app) (targets app) (currentLayout app)
             (registry app
              ++ pair_tweens random duration avail index (draws app))
             (draws app + 2 * List.length avail),
       if (List.length objs <=? List.length (skipn index elements))%nat
       then Normal else Throw TypeError).
Proof.
  induction objs as [|o objs IH]; intros index app; cbv zeta.
  - simpl. rewrite app_nil_r, Nat.add_0_r. now destruct app.
  - cbn [transform_forEach get_index].
    destruct (nth_error elements index) as [target|] eqn:E.
    + rewrite (skipn_nth_error_cons elements index target E).
      rewrite IH. cbn [List.length firstn pair_tweens].
      unfold start_pair, Math_random, TWEEN_start, set_registry, TWEEN.start.
      cbn [objects targets currentLayout registry draws Nat.leb].
      rewrite <- !app_assoc. cbn [List.app].
      f_equal. f_equal. lia.
    + rewrite (skipn_nth_error_nil elements index E).
      cbn [List.length firstn pair_tweens Nat.leb].
      rewrite app_nil_r, Nat.add_0_r. now destruct app.
Qed.

(** [transform] on a target array at least as long as [this.objects]. *)
Lemma transform_array_enough (elements : list Object3D) (duration : R)
  (app : VisualizationApp) :
  (List.length (objects app) <= List.length elements)%nat ->
  transform random (Array elements) duration app
  = (mkApp (objects app) (targets app) (currentLayout app)
           (pair_tweens random duration
              (firstn (List.length (objects app)) elements) 0 (draws app)
            ++ [driver_tween duration])
           (draws app + 2 * List.length (objects app)),
     Normal).
Proof.
  intro Hle. unfold transform.
  rewrite transform_forEach_array. cbv zeta.
  cbn [set_registry objects targets currentLayout registry draws skipn
       TWEEN.removeAll List.app].
  apply Nat.leb_le in Hle as Hb. rewrite Hb.
  unfold TWEEN_start, set_registry, TWEEN.start, driver_tween.
  cbn [objects targets currentLayout registry draws].
  rewrite length_firstn, Nat.min_l by exact Hle. reflexivity.
Qed.

(** [transform] on a target array shorter than [this.objects]. *)
Lemma transform_array_short (elements : list Object3D) (duration : R)
  (app : VisualizationApp) :
  (List.length elements < List.length (objects app))%nat ->
  transform random (Array elements) duration app
  = (mkApp (objects app) (targets app) (currentLayout app)
           (pair_tweens random duration elements 0 (draws app))
           (draws app + 2 * List.length elements),
     Throw TypeError).
Proof.
  intro Hlt. unfold transform.
  rewrite transform_forEach_array. cbv zeta.
  cbn [set_registry objects targets currentLayout registry draws skipn
       TWEEN.removeAll List.app].
  assert (Hb : (List.length (objects app) <=? List.length elements)%nat
               = false) by (apply Nat.leb_gt; exact Hlt).
  rewrite Hb.
  rewrite firstn_all2 by lia. reflexivity.
Qed.

(** C1, as the code has it.  [transform] does not compare the lengths.
    With fewer targets than objects it throws a TypeError at the first
    object without a target, after it emptied the registry and started
    the position and rotation tweens of every object before that one.
    With more targets than objects it returns normally, with the tweens
    of every object and the redraw tween started.  In both cases no
    object's position or rotation is written by the call. *)
Theorem transform_length_mismatch (elements : list Object3D) (duration : R)
  (app : VisualizationApp) :
  List.length (objects app) <> List.length elements ->
  let r := transform random (Array elements) duration app in
  objects (fst r) = objects app
  /\ ((List.length elements < List.length (objects app))%nat ->
      snd r = Throw TypeError
      /\ registry (fst r)
         = pair_tweens random duration elements 0 (draws app))
  /\ ((List.length (objects app) < List.length elements)%nat ->
      snd r = Normal
      /\ registry (fst r)
         = pair_tweens random duration
             (firstn (List.length (objects app)) elements) 0 (draws app)
           ++ [driver_tween duration]).
Proof.
  intros Hneq r. subst r.
  destruct (Nat.lt_ge_cases (List.length elements)
              (List.length (objects app))) as [Hlt|Hge].
  - rewrite (transform_array_short elements duration app Hlt).
    cbn [fst snd objects registry].
    split; [reflexivity|]. split; [now split | intro; lia].
  - rewrite (transform_array_enough elements duration app Hge).
    cbn [fst snd objects registry].
    split; [reflexivity|]. split; [intro; lia | now split].
Qed.

End ControllerFacts.

(** C1, as the spec has it, fails: with three objects and two targets the
    call does throw, but only after it started the four tweens of the
    first two objects. *)
Lemma transform_three_objects_two_targets :
  ~ mismatch_rejected always_half two_targets 2000 app_of_three.
Proof.
  unfold mismatch_rejected. intros [_ [Hreg _]].
  rewrite (transform_array_short always_half two_targets 2000 app_of_three)
    in Hreg by (simpl; lia).
  discriminate Hreg.
Qed.

Lemma transform_length_mismatch_witness :
  List.length (objects app_of_three) <> List.length two_targets
  /\ let r := transform always_half (Array two_targets) 2000 app_of_three in
     objects (fst r) = objects app_of_three
     /\ ((List.length two_targets < List.length (objects app_of_three))%nat ->
         snd r = Throw TypeError
         /\ registry (fst r)
            = pair_tweens always_half 2000 two_targets 0 (draws app_of_three))
     /\ ((List.length (objects app_of_three) < List.length two_targets)%nat ->
         snd r = Normal
         /\ registry (fst r)
            = pair_tweens always_half 2000
                (firstn (List.length (objects app_of_three)) two_targets) 0
                (draws app_of_three)
              ++ [driver_tween 2000]).
Proof.
  split.
  - simpl. discriminate.
  - apply (transform_length_mismatch always_half two_targets 2000 app_of_three).
    simpl. discriminate.
Defined.

(** ** Layout Selector *)

Lemma get_property_unknown (t : Targets) (layoutName : string) :
  ~ In layoutName layout_kinds ->
  ~ In layoutName Object_prototype_keys ->
  get_property t layoutName = Undefined.
Proof.
  intros Hkind Hproto. unfold get_property.
  repeat match goal with
  | |- context [String.eqb layoutName ?s] =>
      destruct (String.eqb_spec layoutName s) as [->|_];
      [exfalso; apply Hkind; simpl; tauto|]
  end.
  destruct (existsb (String.eqb layoutName) Object_prototype_keys) eqn:E;
    [|reflexivity].
  apply existsb_exists in E. destruct E as [k [Hin Hk]].
  apply String.eqb_eq in Hk. subst k. contradiction.
Qed.

Section SelectorFacts.

Variable random : nat -> R.

(** X12.  A name that is neither a layout kind nor inherited from
    [Object.prototype] leaves the whole state as it was: the current
    layout, the objects, the running tweens. *)
Lemma changeLayout_unknown (layoutName : string) (app : VisualizationApp) :
  ~ In layoutName layout_kinds ->
  ~ In layoutName Object_prototype_keys ->
  changeLayout random layoutName app = (app, Normal).
Proof.
  intros Hkind Hproto. unfold changeLayout.
  now rewrite (get_property_unknown _ _ Hkind Hproto).
Qed.

(** C2 on the code: the name [constructor] is not a layout kind, and
    [this.targets["constructor"]] is the inherited function [Object],
    which is truthy.  [changeLayout] records the name as the current
    layout and calls [transform], which empties the registry and throws
    a TypeError at the first object; with no object it returns normally,
    with the redraw tween started. *)
Theorem changeLayout_inherited_name (app : VisualizationApp) :
  let r := changeLayout random "constructor" app in
  ~ In "constructor" layout_kinds
  /\ currentLayout (fst r) = "constructor"
  /\ objects (fst r) = objects app
  /\ snd r = match objects app with
             | [] => Normal
             | _ :: _ => Throw TypeError
             end
  /\ registry (fst r) = match objects app with
                        | [] => [driver_tween 2000]
                        | _ :: _ => []
                        end.
Proof.
  cbv zeta. split.
  - simpl. intros [H|[H|[H|[H|[H|[]]]]]]; discriminate H.
  - unfold changeLayout.
    change (get_property (targets app) "constructor")
      with (Builtin "constructor").
    cbn [truthy]. unfold transform.
    cbn [set_currentLayout set_registry objects targets currentLayout
         registry draws TWEEN.removeAll].
    destruct (objects app) as [|o objs] eqn:E; cbn;
      repeat split; solve [reflexivity | exact E].
Qed.

End SelectorFacts.

(** The name [constructor] on the sample state: the current layout is
    overwritten and the call throws. *)
Lemma changeLayout_constructor_not_ignored :
  ~ unknown_layout_ignored always_half "constructor" app_of_three.
Proof.
  unfold unknown_layout_ignored. intros [Hnormal _].
  discriminate Hnormal.
Qed.

(** ** createObjects *)

Section CreateFacts.

Variable lookAtEuler : Vector3 -> Vector3 -> Vector3.
Variable random : nat -> R.

(** [Math.random()] returns a number in [0, 1). *)
Hypothesis random_range : forall k : nat, 0 <= random k < 1.

Lemma create_object_in_box (app : VisualizationApp) :
  exists o : Object3D,
    create_object random app
    = mkApp (objects app ++ [o]) (targets app) (currentLayout app)
            (registry app) (draws app + 3)
    /\ in_start_box (position o)
    /\ rotation o = zero.
Proof.
  unfold create_object, Math_random, set_objects.
  cbn [objects targets currentLayout registry draws].
  eexists. split; [|split].
  - f_equal. lia.
  - unfold in_start_box, set_position. cbn [position x y z].
    pose proof (random_range (draws app)).
    pose proof (random_range (S (draws app))).
    pose proof (random_range (S (S (draws app)))).
    repeat split; lra.
  - reflexivity.
Qed.

Lemma create_forEach_in_box (data : list Item) :
  forall app,
    Forall (fun o => in_start_box (position o)) (objects app) ->
    let app' := create_forEach random data app in
    Forall (fun o => in_start_box (position o)) (objects app')
    /\ List.length (objects app')
       = (List.length (objects app) + List.length data)%nat
    /\ targets app' = targets app
    /\ currentLayout app' = currentLayout app
    /\ registry app' = registry app
    /\ draws app' = (draws app + 3 * List.length data)%nat.
Proof.
  induction data as [|item data IH]; intros app Hbox; cbv zeta.
  - cbn [create_forEach List.length]. repeat split; try lia; assumption.
  - cbn [create_forEach List.length].
    destruct (create_object_in_box app) as [o [Ho [Hin _]]].
    rewrite Ho.
    match goal with
    | |- context [create_forEach random data ?a] =>
        destruct (IH a) as [H1 [H2 [H3 [H4 [H5 H6]]]]]
    end.
    { cbn [objects]. apply Forall_app. split; [exact Hbox|].
      constructor; [exact Hin|constructor]. }
    cbn [objects targets currentLayout registry draws] in *.
    rewrite length_app in H2. cbn [List.length] in H2.
    repeat split; try assumption; lia.
Qed.

(** C10.  [createObjects] gives every new object a position whose three
    coordinates are in [-2000, 2000), one object per record, and then
    starts the transition to the table target array with base duration
    2000: a position and a rotation tween per object towards the table
    target of its index and the redraw tween of duration 4000.  The
    recorded current layout is neither read nor written. *)
Theorem createObjects_starts_table (data : list Item) (app : VisualizationApp) :
  let r := createObjects lookAtEuler random data app in
  snd r = Normal
  /\ List.length (objects (fst r)) = List.length data
  /\ Forall (fun o => in_start_box (position o)) (objects (fst r))
  /\ targets (fst r) = calculateLayouts lookAtEuler data
  /\ registry (fst r)
     = pair_tweens random 2000 (calculateTableLayout data) 0
         (draws app + 3 * List.length data)
       ++ [driver_tween 2000]
  /\ currentLayout (fst r) = currentLayout app.
Proof.
  cbv zeta. unfold createObjects.
  destruct (create_forEach_in_box data (set_objects app []))
    as [H1 [H2 [H3 [H4 [H5 H6]]]]]; [constructor|].
  cbn [set_objects objects targets currentLayout registry draws
       List.length Nat.add] in *.
  set (app2 := create_forEach random data (set_objects app [])) in *.
  assert (Hlen : List.length (calculateTableLayout data) = List.length data).
  { unfold calculateTableLayout, forEach_push. apply forEach_from_length. }
  rewrite transform_array_enough
    by (cbn [set_targets objects targets table calculateLayouts]; lia).
  cbn [fst snd set_targets objects targets currentLayout registry draws
       table calculateLayouts].
  rewrite H2, H6, <- Hlen, firstn_all.
  repeat split; assumption.
Qed.

End CreateFacts.

(** ** The theorems at sample inputs *)

Lemma calculateLayouts_blind_witness :
  calculateLayouts flat_lookAt
    [sample_item 1 "Alex Smith"; sample_item 2 "Riley Jones"]
  = calculateLayouts flat_lookAt
      [sample_item 7 "Quinn Davis"; sample_item 9 "Casey Brown"].
Proof.
  apply (calculateLayouts_blind flat_lookAt
           [sample_item 1 "Alex Smith"; sample_item 2 "Riley Jones"]
           [sample_item 7 "Quinn Davis"; sample_item 9 "Casey Brown"]).
  reflexivity.
Defined.

Lemma table_layout_positions_witness :
  let data := map (fun k => sample_item k "Alex Smith") (seq 1 20) in
  List.length data = 20%nat
  /\ exists o : Object3D,
      nth_error (calculateTableLayout data) 3 = Some o
      /\ (3 / 20 = 0)%nat
      /\ y (position o) = (10 * 180) / 2
      /\ x (position o) = - ((20 * 160) / 2) + 160 * INR 3
      /\ z (position o) = 0
      /\ rotation o = zero.
Proof.
  cbv zeta. split; [reflexivity|].
  apply (proj2 (table_layout_positions
                  (map (fun k => sample_item k "Alex Smith") (seq 1 20))));
    [reflexivity | lia].
Defined.

Lemma grid_layout_inverts_witness :
  grid_indices_of (position (grid_object 57))
  = (INR (57 mod 10), INR ((57 / 10) / 5), INR ((57 / 10) mod 5)).
Proof.
  apply (grid_layout_inverts
           (map (fun k => sample_item k "Alex Smith") (seq 1 60)) 57).
  reflexivity.
Defined.

Lemma tetrahedron_layout_ten_witness :
  map layer
    (tetrahedron_counters (map (fun k => sample_item k "Alex Smith") (seq 1 10)))
  = [1; 2; 2; 2; 3; 3; 3; 3; 3; 3]%nat.
Proof.
  apply (tetrahedron_layout_ten
           (map (fun k => sample_item k "Alex Smith") (seq 1 10))).
  reflexivity.
Defined.

Lemma sphere_layout_on_sphere_witness :
  sphere_object flat_lookAt 5 2
  = lookAt flat_lookAt
      (set_position new_Object3D (position (sphere_object flat_lookAt 5 2)))
      (mkVector3 (x (position (sphere_object flat_lookAt 5 2)) * 2)
                 (y (position (sphere_object flat_lookAt 5 2)) * 2)
                 (z (position (sphere_object flat_lookAt 5 2)) * 2)).
Proof.
  apply (sphere_layout_on_sphere flat_lookAt
           (map (fun k => sample_item k "Alex Smith") (seq 1 5)) 2).
  reflexivity.
Defined.

Lemma createObjects_starts_table_witness :
  (forall k : nat, 0 <= always_half k < 1)
  /\ let r := createObjects flat_lookAt always_half
                [sample_item 1 "Alex Smith"; sample_item 2 "Riley Jones"]
                app_of_three in
     snd r = Normal
     /\ List.length (objects (fst r)) = 2%nat
     /\ currentLayout (fst r) = "table".
Proof.
  assert (Hr : forall k : nat, 0 <= always_half k < 1)
    by (intro k; unfold always_half; lra).
  split; [exact Hr|].
  pose proof (createObjects_starts_table flat_lookAt always_half Hr
                [sample_item 1 "Alex Smith"; sample_item 2 "Riley Jones"]
                app_of_three) as H.
  cbv zeta in H. destruct H as [H1 [H2 [_ [_ [_ H6]]]]].
  cbv zeta. repeat split; assumption.
Defined.

(** * Further properties of the code *)

Lemma calculateLayouts_lengths
  (lookAtEuler : Vector3 -> Vector3 -> Vector3) (data : list Item) :
  let t := calculateLayouts lookAtEuler data in
  List.length (table t) = List.length data
  /\ List.length (sphere t) = List.length data
  /\ List.length (helix t) = List.length data
  /\ List.length (grid t) = List.length data
  /\ List.length (tetrahedron t) = List.length data.
Proof.
  cbv zeta. cbn [table sphere helix grid tetrahedron calculateLayouts].
  unfold calculateTableLayout, calculateSphereLayout, calculateHelixLayout,
    calculateGridLayout, calculateTetrahedronLayout, forEach_push.
  rewrite !forEach_from_length, length_map, tetrahedron_loop_length.
  repeat split.
Qed.

(** ** Tetrahedron layout: the counters in closed form *)

Lemma triangular_double (k : nat) : (2 * triangular k = k * (k + 1))%nat.
Proof. induction k as [|k IH]; simpl triangular; nia. Qed.

Lemma tetrahedral_sixfold (k : nat) :
  (6 * tetrahedral k = k * (k + 1) * (k + 2))%nat.
Proof.
  induction k as [|k IH]; [reflexivity|].
  cbn [tetrahedral]. pose proof (triangular_double (S k)). nia.
Qed.

Lemma triangular_le (a b : nat) : (a <= b)%nat -> (triangular a <= triangular b)%nat.
Proof.
  induction 1 as [|b _ IH]; [lia|]. cbn [triangular]. lia.
Qed.

Lemma counters_invariant (i : nat) :
  let c := tetrahedron_counters_at i in
  (col c <= row c < layer c)%nat /\ records_before c = i.
Proof.
  induction i as [|i IH]; cbv zeta in *.
  - split; [cbn; lia | reflexivity].
  - cbn [tetrahedron_counters_at].
    destruct (tetrahedron_counters_at i) as [l r k].
    unfold records_before in *. cbn [layer row col] in IH.
    destruct IH as [[Hk Hr] Hidx].
    unfold advance, next_col. cbn [layer row col].
    destruct (Nat.ltb_spec r (S k)) as [Hfull|Hroom]; cbn [layer row col].
    + assert (k = r) by lia. subst k.
      destruct (Nat.leb_spec l (S r)) as [Hlast|Hmore]; cbn [layer row col].
      * assert (l = S r) by lia. subst l.
        replace (S (S r) - 1)%nat with (S r) by lia.
        replace (S r - 1)%nat with r in Hidx by lia.
        cbn [tetrahedral triangular] in *. split; lia.
      * cbn [triangular]. split; lia.
    + destruct (Nat.leb_spec l r) as [Hbad|_]; [lia|].
      cbn [layer row col]. split; lia.
Qed.

Lemma records_before_layer (c : Counters) :
  (col c <= row c < layer c)%nat ->
  (tetrahedral (layer c - 1) <= records_before c < tetrahedral (layer c))%nat.
Proof.
  intros [Hk Hr]. unfold records_before. split; [lia|].
  destruct (layer c) as [|l] eqn:E; [lia|].
  replace (S l - 1)%nat with l by lia. cbn [tetrahedral].
  assert (H1 : (triangular (S (row c)) <= triangular (S l))%nat)
    by (apply triangular_le; lia).
  cbn [triangular] in H1 |- *. lia.
Qed.

Lemma tetrahedron_counters_nth (data : list Item) (i : nat) :
  nth_error (tetrahedron_counters data) i
  = if (i <? List.length data)%nat
    then Some (tetrahedron_counters_at i) else None.
Proof.
  unfold tetrahedron_counters.
  rewrite nth_error_map, tetrahedron_loop_nth, counters_from_initial.
  now destruct (i <? List.length data)%nat.
Qed.

(** X1.  The tetrahedron layout fills layers, rows and columns in order:
    the record of index [i] is placed with [col <= row < layer], it is
    record number [tetrahedral (layer-1) + triangular row + col], and so
    layer [k] holds exactly the records from [tetrahedral (k-1)] up to
    [tetrahedral k], that is [k (k+1) / 2] of them. *)
Theorem tetrahedron_counters_closed_form (data : list Item) (i : nat)
  (c : Counters) :
  nth_error (tetrahedron_counters data) i = Some c ->
  (col c <= row c < layer c)%nat
  /\ i = (tetrahedral (layer c - 1) + triangular (row c) + col c)%nat
  /\ (tetrahedral (layer c - 1) <= i < tetrahedral (layer c))%nat
  /\ (2 * triangular (layer c) = layer c * (layer c + 1))%nat
  /\ (6 * tetrahedral (layer c)
      = layer c * (layer c + 1) * (layer c + 2))%nat.
Proof.
  rewrite tetrahedron_counters_nth.
  destruct (i <? List.length data)%nat; [|discriminate].
  intro H. injection H as <-.
  destruct (counters_invariant i) as [Hord Hidx]. cbv zeta in *.
  pose proof (records_before_layer _ Hord) as Hlayer.
  rewrite Hidx in Hlayer. unfold records_before in Hidx.
  repeat split; try lia.
  - apply triangular_double.
  - apply tetrahedral_sixfold.
Qed.

Lemma place_injective (c1 c2 : Counters) : place c1 = place c2 -> c1 = c2.
Proof.
  destruct c1 as [l1 r1 k1], c2 as [l2 r2 k2].
  unfold place, set_position. cbn [layer row col].
  intro H. injection H as Hx Hy Hz.
  assert (Hl : INR l1 = INR l2) by lra.
  assert (Hr : INR r1 = INR r2) by lra.
  assert (Hk : INR k1 = INR k2) by lra.
  apply INR_eq in Hl, Hr, Hk. now subst.
Qed.

(** X2.  No two records of the tetrahedron layout share a position. *)
Theorem tetrahedron_layout_injective (data : list Item) (i j : nat)
  (o : Object3D) :
  nth_error (calculateTetrahedronLayout data) i = Some o ->
  nth_error (calculateTetrahedronLayout data) j = Some o ->
  i = j.
Proof.
  rewrite !calculateTetrahedronLayout_nth.
  destruct (i <? List.length data)%nat; [|discriminate].
  destruct (j <? List.length data)%nat; [|discriminate].
  intros Hi Hj.
  assert (E : place (tetrahedron_counters_at i)
              = place (tetrahedron_counters_at j)) by congruence.
  apply place_injective in E.
  destruct (counters_invariant i) as [_ Hidx_i].
  destruct (counters_invariant j) as [_ Hidx_j].
  cbv zeta in *. rewrite E in Hidx_i. congruence.
Qed.

(** ** Table and grid layouts: no two records in one place *)

Lemma INR_le_upper (n m : nat) : (n <= m)%nat -> INR n <= IZR (Z.of_nat m).
Proof. intro H. rewrite <- INR_IZR_INZ. now apply le_INR. Qed.

Lemma INR_le_lower (n m : nat) : (m <= n)%nat -> IZR (Z.of_nat m) <= INR n.
Proof. intro H. rewrite <- INR_IZR_INZ. now apply le_INR. Qed.

(** The coordinates of an equation between two objects. *)
Ltac coordinates H Hx Hy Hz :=
  pose proof (f_equal (fun o => x (position o)) H) as Hx;
  pose proof (f_equal (fun o => y (position o)) H) as Hy;
  pose proof (f_equal (fun o => z (position o)) H) as Hz;
  cbn [position x y z] in Hx, Hy, Hz.

Lemma table_object_injective (i j : nat) :
  table_object i = table_object j -> i = j.
Proof.
  rewrite !table_object_formula. intro H. coordinates H Hx Hy Hz.
  assert (Hc : INR (i mod 20) = INR (j mod 20)) by lra.
  assert (Hr : INR (i / 20) = INR (j / 20)) by lra.
  apply INR_eq in Hc, Hr.
  rewrite (Nat.div_mod_eq i 20), (Nat.div_mod_eq j 20). congruence.
Qed.

Lemma grid_object_injective (i j : nat) :
  grid_object i = grid_object j -> i = j.
Proof.
  rewrite !grid_object_formula. intro H. coordinates H Hx Hy Hz.
  assert (Ha : INR (i mod 10) = INR (j mod 10)) by lra.
  assert (Hb : INR (i / 10 / 5) = INR (j / 10 / 5)) by lra.
  assert (Hc : INR ((i / 10) mod 5) = INR ((j / 10) mod 5)) by lra.
  apply INR_eq in Ha, Hb, Hc.
  assert (Hl : (i / 10 = j / 10)%nat).
  { rewrite (Nat.div_mod_eq (i / 10) 5), (Nat.div_mod_eq (j / 10) 5).
    congruence. }
  rewrite (Nat.div_mod_eq i 10), (Nat.div_mod_eq j 10). congruence.
Qed.

(** X3.  No two records of the table layout share a position, however
    many records there are (the rows go on below the tenth). *)
Theorem table_layout_injective (data : list Item) (i j : nat) (o : Object3D) :
  nth_error (calculateTableLayout data) i = Some o ->
  nth_error (calculateTableLayout data) j = Some o ->
  i = j.
Proof.
  rewrite !calculateTableLayout_nth.
  destruct (i <? List.length data)%nat; [|discriminate].
  destruct (j <? List.length data)%nat; [|discriminate].
  intros Hi Hj. apply table_object_injective. congruence.
Qed.

(** X4.  No two records of the grid layout share a position, however many
    records there are (the layers go on above the fourth row). *)
Theorem grid_layout_injective (data : list Item) (i j : nat) (o : Object3D) :
  nth_error (calculateGridLayout data) i = Some o ->
  nth_error (calculateGridLayout data) j = Some o ->
  i = j.
Proof.
  rewrite !calculateGridLayout_nth.
  destruct (i <? List.length data)%nat; [|discriminate].
  destruct (j <? List.length data)%nat; [|discriminate].
  intros Hi Hj. apply grid_object_injective. congruence.
Qed.

(** X5.  The first 200 records of the table layout lie in the rectangle
    from (-1600, -720) to (1440, 900) of the plane [z = 0]; every later
    record lies below it, at [y <= -900]. *)
Theorem table_layout_extent (data : list Item) (i : nat) (o : Object3D) :
  nth_error (calculateTableLayout data) i = Some o ->
  -1600 <= x (position o) <= 1440
  /\ z (position o) = 0
  /\ ((i < 200)%nat -> -720 <= y (position o) <= 900)
  /\ ((200 <= i)%nat -> y (position o) <= -900).
Proof.
  rewrite calculateTableLayout_nth.
  destruct (i <? List.length data)%nat; [|discriminate].
  intro H. injection H as <-.
  rewrite table_object_formula. cbn [position x y z].
  pose proof (pos_INR (i mod 20)) as Hc0.
  pose proof (pos_INR (i / 20)) as Hr0.
  assert (Hc : INR (i mod 20) <= 19).
  { apply (INR_le_upper _ 19).
    pose proof (Nat.mod_upper_bound i 20). lia. }
  split; [lra|]. split; [reflexivity|]. split; intro Hi.
  - assert (Hr : INR (i / 20) <= 9).
    { apply (INR_le_upper _ 9).
      assert ((i / 20 < 10)%nat)
        by (apply Nat.Div0.div_lt_upper_bound; lia).
      lia. }
    lra.
  - assert (Hr : 10 <= INR (i / 20)).
    { apply (INR_le_lower _ 10).
      apply Nat.div_le_lower_bound; lia. }
    lra.
Qed.

(** ** Sphere layout: heights *)

Lemma sphere_position_z (n i : nat) :
  (i < n)%nat ->
  z (sphere_position n i) = 900 * (2 * INR i / INR n - 1).
Proof.
  intro Hi. unfold sphere_position, sphere_phi. cbn [z].
  assert (Hn : 0 < INR n) by (apply lt_0_INR; lia).
  assert (Hin : INR i < INR n) by (apply lt_INR; exact Hi).
  pose proof (pos_INR i) as Hi0.
  assert (Hq : 0 <= 2 * INR i / INR n < 2).
  { split.
    - apply Rmult_le_pos; [lra|]. apply Rlt_le, Rinv_0_lt_compat, Hn.
    - apply (Rmult_lt_reg_r (INR n)); [exact Hn|].
      unfold Rdiv. rewrite Rmult_assoc, Rinv_l by lra. lra. }
  rewrite cos_acos by lra. lra.
Qed.

Section SphereHeights.

Variable lookAtEuler : Vector3 -> Vector3 -> Vector3.

(** X6.  In the sphere layout of [n] records the record of index [i] is at
    height [z = 900 (2 i / n - 1)]: the heights start at -900 and rise by
    equal steps of [1800 / n], so a later record is strictly higher and no
    two records share a position. *)
Theorem sphere_layout_heights (data : list Item) (i j : nat)
  (oi oj : Object3D) :
  nth_error (calculateSphereLayout lookAtEuler data) i = Some oi ->
  nth_error (calculateSphereLayout lookAtEuler data) j = Some oj ->
  z (position oi) = 900 * (2 * INR i / INR (List.length data) - 1)
  /\ ((i < j)%nat -> z (position oi) < z (position oj))
  /\ (oi = oj -> i = j).
Proof.
  rewrite !calculateSphereLayout_nth.
  destruct (Nat.ltb_spec i (List.length data)) as [Hi|]; [|discriminate].
  destruct (Nat.ltb_spec j (List.length data)) as [Hj|]; [|discriminate].
  intros Ei Ej. injection Ei as <-. injection Ej as <-.
  set (n := List.length data) in *.
  assert (Hzi : z (position (sphere_object lookAtEuler n i))
                = 900 * (2 * INR i / INR n - 1))
    by (apply (sphere_position_z n i Hi)).
  assert (Hzj : z (position (sphere_object lookAtEuler n j))
                = 900 * (2 * INR j / INR n - 1))
    by (apply (sphere_position_z n j Hj)).
  assert (Hn : 0 < / INR n)
    by (apply Rinv_0_lt_compat, lt_0_INR; lia).
  assert (Hmono : forall a b : nat, (a < b)%nat ->
            900 * (2 * INR a / INR n - 1) < 900 * (2 * INR b / INR n - 1)).
  { intros a b Hab. apply lt_INR in Hab. unfold Rdiv. nra. }
  split; [exact Hzi|]. split.
  - intro Hij. rewrite Hzi, Hzj. now apply Hmono.
  - intro E. rewrite E in Hzi. rewrite Hzi in Hzj.
    destruct (Nat.lt_trichotomy i j) as [Hlt|[Heq|Hgt]]; [|exact Heq|].
    + apply Hmono in Hlt. lra.
    + apply Hmono in Hgt. lra.
Qed.

End SphereHeights.

(** ** Helix layout *)

Lemma helix_position (lookAtEuler : Vector3 -> Vector3 -> Vector3) (i : nat) :
  position (helix_object lookAtEuler i)
  = mkVector3
      (700 * cos (INR (i / 2) * (15 / 100) + INR (i mod 2) * PI))
      (- (INR (i / 2) * 30) + 1250)
      (700 * sin (INR (i / 2) * (15 / 100) + INR (i mod 2) * PI)).
Proof. reflexivity. Qed.

Section HelixFacts.

Variable lookAtEuler : Vector3 -> Vector3 -> Vector3.

(** X7.  Every record of the helix layout is at distance 700 from the
    vertical axis, at height [1250 - 30 floor(i/2)], and looks at the
    point [(2x, y, 2z)]: straight away from the axis, at its own height. *)
Theorem helix_layout_on_cylinder (data : list Item) (i : nat) (o : Object3D) :
  nth_error (calculateHelixLayout lookAtEuler data) i = Some o ->
  sqrt (x (position o) * x (position o) + z (position o) * z (position o))
  = 700
  /\ y (position o) = 1250 - 30 * INR (i / 2)
  /\ o = lookAt lookAtEuler
           (set_position new_Object3D (position o))
           (mkVector3 (x (position o) * 2) (y (position o))
                      (z (position o) * 2)).
Proof.
  rewrite calculateHelixLayout_nth.
  destruct (i <? List.length data)%nat; [|discriminate].
  intro H. injection H as <-.
  split; [|split].
  - rewrite helix_position. cbn [x z].
    set (theta := INR (i / 2) * (15 / 100) + INR (i mod 2) * PI).
    pose proof (sin2_cos2 theta) as Ht. unfold Rsqr in Ht.
    replace (700 * cos theta * (700 * cos theta)
             + 700 * sin theta * (700 * sin theta))
      with (700 * 700 * (sin theta * sin theta + cos theta * cos theta))
      by ring.
    rewrite Ht, Rmult_1_r. apply sqrt_square. lra.
  - rewrite helix_position. cbn [y]. lra.
  - reflexivity.
Qed.

(** X8.  The two strands of the helix face each other: the records of
    indices [2k] and [2k+1] are at the same height and, with real
    arithmetic in place of the code's doubles, at mirrored places across
    the vertical axis ([x] and [z] negated). *)
Theorem helix_layout_strands (data : list Item) (k : nat) (a b : Object3D) :
  nth_error (calculateHelixLayout lookAtEuler data) (2 * k) = Some a ->
  nth_error (calculateHelixLayout lookAtEuler data) (2 * k + 1) = Some b ->
  y (position b) = y (position a)
  /\ x (position b) = - x (position a)
  /\ z (position b) = - z (position a).
Proof.
  assert (E0 : ((2 * k) mod 2 = 0)%nat)
    by (rewrite Nat.mul_comm; apply Nat.Div0.mod_mul).
  assert (E1 : ((2 * k) / 2 = k)%nat)
    by (rewrite Nat.mul_comm; apply Nat.div_mul; lia).
  assert (E2 : ((2 * k + 1) mod 2 = 1)%nat).
  { rewrite Nat.add_comm, Nat.mul_comm, Nat.Div0.mod_add. reflexivity. }
  assert (E3 : ((2 * k + 1) / 2 = k)%nat).
  { rewrite Nat.add_comm, Nat.mul_comm, Nat.div_add by lia. reflexivity. }
  remember (2 * k)%nat as i eqn:Ei. remember (i + 1)%nat as j eqn:Ej.
  rewrite !calculateHelixLayout_nth.
  destruct (i <? List.length data)%nat; [|discriminate].
  destruct (j <? List.length data)%nat; [|discriminate].
  intros Ha Hb.
  assert (Ea : a = helix_object lookAtEuler i) by congruence.
  assert (Eb : b = helix_object lookAtEuler j) by congruence.
  rewrite Ea, Eb, !helix_position. cbn [x y z].
  rewrite E0, E1, E2, E3. cbn [INR].
  rewrite Rmult_0_l, Rplus_0_r, Rmult_1_l, neg_cos, neg_sin.
  repeat split; ring.
Qed.

End HelixFacts.

(** ** Transition Controller: durations *)

Lemma pair_tweens_durations (random : nat -> R) (d : R)
  (targets : list Object3D) :
  (forall k : nat, 0 <= random k < 1) -> 0 < d ->
  forall index k,
    Forall (fun t => subject t <> TheApp
                     /\ d <= TWEEN.duration t <= d * 2
                     /\ easing t = Exponential_InOut)
           (pair_tweens random d targets index k).
Proof.
  intros Hrand Hd.
  induction targets as [|t targets IH]; intros index k; cbn [pair_tweens];
    [constructor|].
  pose proof (Hrand k). pose proof (Hrand (S k)).
  constructor; [|constructor; [|apply IH]];
    cbn [subject TWEEN.duration easing];
    (split; [discriminate|split; [nra|reflexivity]]).
Qed.

Section TransitionFacts.

Variable random : nat -> R.
Hypothesis random_range : forall k : nat, 0 <= random k < 1.

(** X9.  A transition towards an array with a target for every object
    returns normally with two tweens per object and the redraw tween, which
    is the last one started.  Every object tween eases exponentially and
    lasts at least the base duration and at most twice as long, so no
    object tween outlasts the redraw tween, of twice the base duration. *)
Theorem transform_durations (elements : list Object3D) (d : R)
  (app : VisualizationApp) :
  0 < d ->
  (List.length (objects app) <= List.length elements)%nat ->
  let r := transform random (Array elements) d app in
  let n := List.length (objects app) in
  snd r = Normal
  /\ List.length (registry (fst r)) = (2 * n + 1)%nat
  /\ nth_error (registry (fst r)) (2 * n) = Some (driver_tween d)
  /\ Forall (fun t => TWEEN.duration t <= TWEEN.duration (driver_tween d)
                      /\ (subject t <> TheApp ->
                          d <= TWEEN.duration t <= d * 2
                          /\ easing t = Exponential_InOut))
            (registry (fst r)).
Proof.
  intros Hd Hle. cbv zeta.
  rewrite (transform_array_enough random elements d app Hle).
  cbn [fst snd registry draws].
  set (ts := pair_tweens random d
               (firstn (List.length (objects app)) elements) 0 (draws app)).
  assert (Hlen : List.length ts = (2 * List.length (objects app))%nat).
  { unfold ts. rewrite pair_tweens_length, length_firstn. lia. }
  split; [reflexivity|]. split.
  { rewrite length_app, Hlen. cbn [List.length]. lia. }
  split.
  { rewrite nth_error_app2 by lia. rewrite Hlen, Nat.sub_diag. reflexivity. }
  apply Forall_app. split.
  - pose proof (pair_tweens_durations random d
                  (firstn (List.length (objects app)) elements)
                  random_range Hd 0%nat (draws app)) as H.
    fold ts in H. revert H. apply Forall_impl.
    intros t [Hs [Hdur He]]. cbn [driver_tween TWEEN.duration].
    split; [lra|]. intros _. now split.
  - constructor; [|constructor].
    split; [lra|]. intro H. now contradiction H.
Qed.

End TransitionFacts.

(** ** createObjects in closed form *)

Section ReloadFacts.

Variable lookAtEuler : Vector3 -> Vector3 -> Vector3.
Variable random : nat -> R.

Lemma create_forEach_eq (data : list Item) :
  forall app,
    create_forEach random data app
    = mkApp (objects app ++ new_objects random data (draws app))
            (targets app) (currentLayout app) (registry app)
            (draws app + 3 * List.length data).
Proof.
  induction data as [|item data IH]; intro app.
  - cbn [create_forEach new_objects List.length].
    rewrite app_nil_r, Nat.mul_0_r, Nat.add_0_r. now destruct app.
  - cbn [create_forEach new_objects List.length]. rewrite IH.
    unfold create_object, Math_random, set_objects, set_position.
    cbn [objects targets currentLayout registry draws new_Object3D rotation].
    rewrite <- app_assoc. cbn [List.app]. f_equal. lia.
Qed.

Lemma new_objects_length (data : list Item) :
  forall d, List.length (new_objects random data d) = List.length data.
Proof.
  induction data as [|item data IH]; intro d; cbn [new_objects List.length];
    [reflexivity|]. now rewrite IH.
Qed.

Lemma createObjects_eq (data : list Item) (app : VisualizationApp) :
  createObjects lookAtEuler random data app
  = (mkApp (new_objects random data (draws app))
           (calculateLayouts lookAtEuler data)
           (currentLayout app)
           (pair_tweens random 2000 (calculateTableLayout data) 0
              (draws app + 3 * List.length data)
            ++ [driver_tween 2000])
           (draws app + 5 * List.length data),
     Normal).
Proof.
  unfold createObjects. rewrite create_forEach_eq.
  cbn [set_objects set_targets objects targets currentLayout registry draws
       List.app table calculateLayouts].
  assert (Hlen : List.length (calculateTableLayout data) = List.length data).
  { unfold calculateTableLayout, forEach_push. apply forEach_from_length. }
  unfold set_targets. cbn [objects targets currentLayout registry draws].
  rewrite transform_array_enough
    by (cbn [objects]; rewrite new_objects_length, Hlen; lia).
  cbn [objects targets currentLayout registry draws].
  rewrite new_objects_length, <- Hlen, firstn_all, Hlen.
  f_equal. f_equal. lia.
Qed.

(** X10.  A reload keeps nothing of the old scene: what [createObjects]
    leaves depends only on the records, on the recorded current layout and
    on the random numbers still to come.  The old objects, the old target
    arrays and the running tweens have no influence. *)
Theorem createObjects_discards_old_state (data : list Item)
  (app app' : VisualizationApp) :
  currentLayout app = currentLayout app' ->
  draws app = draws app' ->
  createObjects lookAtEuler random data app
  = createObjects lookAtEuler random data app'.
Proof.
  intros Hlayout Hdraws. rewrite !createObjects_eq, Hlayout, Hdraws.
  reflexivity.
Qed.

(** X11.  After [createObjects], [changeLayout] with any of the five layout
    kinds returns normally: it records the kind as the current layout, and
    the registry then holds exactly the tweens of every object towards the
    target of its index in that kind's array, and the redraw tween; the
    objects and the target arrays are not written. *)
Theorem changeLayout_after_createObjects (data : list Item)
  (app : VisualizationApp) (kind : string) :
  In kind layout_kinds ->
  let app1 := fst (createObjects lookAtEuler random data app) in
  exists arr : list Object3D,
    get_property (calculateLayouts lookAtEuler data) kind = Array arr
    /\ List.length arr = List.length data
    /\ changeLayout random kind app1
       = (mkApp (objects app1) (targets app1) kind
                (pair_tweens random 2000 arr 0 (draws app1)
                 ++ [driver_tween 2000])
                (draws app1 + 2 * List.length data),
          Normal).
Proof.
  intros Hkind app1. subst app1. rewrite createObjects_eq. cbn [fst].
  set (app1 := mkApp _ _ _ _ _).
  destruct (calculateLayouts_lengths lookAtEuler data)
    as [Ht [Hs [Hh [Hg Hte]]]].
  assert (Hgen : forall arr,
             get_property (calculateLayouts lookAtEuler data) kind = Array arr ->
             List.length arr = List.length data ->
             changeLayout random kind app1
             = (mkApp (objects app1) (targets app1) kind
                      (pair_tweens random 2000 arr 0 (draws app1)
                       ++ [driver_tween 2000])
                      (draws app1 + 2 * List.length data),
                Normal)).
  { intros arr Hget Hlen. unfold changeLayout, set_currentLayout, app1.
    cbn [objects targets currentLayout registry draws].
    rewrite Hget. cbn [truthy].
    rewrite transform_array_enough
      by (cbn [objects]; rewrite new_objects_length; lia).
    cbn [objects targets currentLayout registry draws].
    rewrite new_objects_length, <- Hlen, firstn_all. reflexivity. }
  cbn [layout_kinds In] in Hkind.
  destruct Hkind as [<-|[<-|[<-|[<-|[<-|[]]]]]];
    eexists; (split; [reflexivity|]); (split; [eassumption|]);
    apply Hgen; try reflexivity; assumption.
Qed.

End ReloadFacts.

Lemma changeLayout_unknown_witness :
  changeLayout always_half "nonexistent" app_of_three = (app_of_three, Normal).
Proof.
  apply (changeLayout_unknown always_half "nonexistent" app_of_three).
  - cbn [layout_kinds In].
    intros [H|[H|[H|[H|[H|[]]]]]]; discriminate H.
  - cbn [Object_prototype_keys In].
    intros [H|[H|[H|[H|[H|[H|[H|[H|[H|[H|[H|[H|[]]]]]]]]]]]]];
      discriminate H.
Defined.

(** ** DataManager: the colour classes of the placeholder data *)

Lemma Math_floor_scaled (r : R) (m : Z) :
  0 <= r < 1 -> (0 < m)%Z ->
  0 <= Math_floor (r * IZR m) <= IZR (m - 1).
Proof.
  intros Hr Hm. unfold Math_floor.
  apply IZR_lt in Hm.
  pose proof (Zfloor_bound (r * IZR m)) as [Hlo Hhi].
  split.
  - apply IZR_le, Zfloor_lub. nra.
  - apply IZR_le.
    assert (Hlt : (Zfloor (r * IZR m) < m)%Z) by (apply lt_IZR; nra).
    lia.
Qed.

(** X13.  The net worth of a placeholder item is a whole amount from 1000
    to 999999.  In the first bracket it is always classed [low-worth] and
    in the second always [medium-worth]; in the third it is classed
    [high-worth], except that the lowest amount of that bracket, 200000
    (drawn when [r * 800000 < 1]), is classed [medium-worth]. *)
Theorem placeholder_netWorth_class (rand r : R) :
  0 <= r < 1 ->
  let netWorth := placeholder_netWorth rand r in
  1000 <= netWorth <= 999999
  /\ (exists k : Z, netWorth = IZR k)
  /\ (rand < 33 / 100 -> getColorClass netWorth = "low-worth")
  /\ (33 / 100 <= rand < 66 / 100 -> getColorClass netWorth = "medium-worth")
  /\ (66 / 100 <= rand ->
      getColorClass netWorth
      = if Rlt_dec (r * 800000) 1 then "medium-worth" else "high-worth").
Proof.
  intros Hr. cbv zeta. unfold placeholder_netWorth.
  pose proof (Math_floor_scaled r 99000 Hr eq_refl) as H1.
  pose proof (Math_floor_scaled r 100000 Hr eq_refl) as H2.
  pose proof (Math_floor_scaled r 800000 Hr eq_refl) as H3.
  change (99000 - 1)%Z with 98999%Z in H1.
  change (100000 - 1)%Z with 99999%Z in H2.
  change (800000 - 1)%Z with 799999%Z in H3.
  split; [|split; [|split; [|split]]].
  - destruct (Rlt_dec rand (33 / 100)); [lra|].
    destruct (Rlt_dec rand (66 / 100)); lra.
  - unfold Math_floor.
    destruct (Rlt_dec rand (33 / 100));
      [|destruct (Rlt_dec rand (66 / 100))];
      eexists; rewrite <- plus_IZR; reflexivity.
  - intro Hb. destruct (Rlt_dec rand (33 / 100)); [|lra].
    unfold getColorClass.
    destruct (Rlt_dec (Math_floor (r * 99000) + 1000) 100000); [reflexivity|lra].
  - intro Hb. destruct (Rlt_dec rand (33 / 100)); [lra|].
    destruct (Rlt_dec rand (66 / 100)); [|lra].
    unfold getColorClass.
    destruct (Rlt_dec (Math_floor (r * 100000) + 100000) 100000); [lra|].
    destruct (Rle_dec (Math_floor (r * 100000) + 100000) 200000);
      [reflexivity|lra].
  - intro Hb. destruct (Rlt_dec rand (33 / 100)); [lra|].
    destruct (Rlt_dec rand (66 / 100)); [lra|].
    unfold getColorClass.
    destruct (Rlt_dec (Math_floor (r * 800000) + 200000) 100000); [lra|].
    destruct (Rlt_dec (r * 800000) 1) as [Hsmall|Hbig].
    + assert (E : Math_floor (r * 800000) = 0).
      { unfold Math_floor. rewrite (Zfloor_eq 0); [reflexivity|]. lra. }
      rewrite E.
      destruct (Rle_dec (0 + 200000) 200000); [reflexivity|lra].
    + assert (E : 1 <= Math_floor (r * 800000)).
      { unfold Math_floor. apply IZR_le, Zfloor_lub. lra. }
      destruct (Rle_dec (Math_floor (r * 800000) + 200000) 200000);
        [lra|reflexivity].
Qed.

(** ** DataManager: trim *)

Lemma trimStart_head (s : list code_unit) : head_not_white (trimStart s).
Proof.
  induction s as [|c s IH]; cbn [trimStart]; [exact I|].
  destruct (isWhiteSpace c) eqn:E; [exact IH | exact E].
Qed.

Lemma trimStart_id (s : list code_unit) : head_not_white s -> trimStart s = s.
Proof.
  destruct s as [|c s]; cbn [head_not_white trimStart]; [reflexivity|].
  now intros ->.
Qed.

Lemma trimStart_split (s : list code_unit) :
  exists p, s = p ++ trimStart s /\ Forall (fun c => isWhiteSpace c = true) p.
Proof.
  induction s as [|c s [p [Hs Hp]]]; cbn [trimStart].
  - exists []. split; [reflexivity|constructor].
  - destruct (isWhiteSpace c) eqn:E.
    + exists (c :: p). split; [cbn; now f_equal | now constructor].
    + exists []. split; [reflexivity|constructor].
Qed.

Lemma trimStart_In (s : list code_unit) (c : code_unit) :
  In c (trimStart s) -> In c s.
Proof.
  destruct (trimStart_split s) as [p [Hs _]]. intro H.
  rewrite Hs. apply in_or_app. now right.
Qed.

Lemma trimStart_keeps (s : list code_unit) (c : code_unit) :
  In c s -> isWhiteSpace c = false -> In c (trimStart s).
Proof.
  intros Hin Hc. induction s as [|a s IH]; [contradiction|].
  cbn [trimStart]. destruct (isWhiteSpace a) eqn:E; [|exact Hin].
  destruct Hin as [->|Hin]; [congruence | now apply IH].
Qed.

Lemma trimStart_white (s : list code_unit) :
  Forall (fun c => isWhiteSpace c = true) s -> trimStart s = [].
Proof.
  induction 1 as [|c s Hc _ IH]; cbn [trimStart]; [reflexivity|].
  now rewrite Hc.
Qed.

Lemma trim_In (s : list code_unit) (c : code_unit) : In c (trim s) -> In c s.
Proof.
  unfold trim. intro H.
  apply trimStart_In. apply in_rev. apply trimStart_In. now apply in_rev.
Qed.

Lemma trim_keeps (s : list code_unit) (c : code_unit) :
  In c s -> isWhiteSpace c = false -> In c (trim s).
Proof.
  unfold trim. intros Hin Hc.
  apply -> in_rev. apply trimStart_keeps; [|exact Hc].
  apply -> in_rev. now apply trimStart_keeps.
Qed.

Lemma trim_white (s : list code_unit) :
  Forall (fun c => isWhiteSpace c = true) s -> trim s = [].
Proof.
  intro H. unfold trim. now rewrite (trimStart_white s H).
Qed.

Lemma trim_idempotent (s : list code_unit) : trim (trim s) = trim s.
Proof.
  unfold trim.
  set (u := trimStart s). set (v := trimStart (rev u)).
  assert (Hu : head_not_white u) by apply trimStart_head.
  assert (Hv : head_not_white v) by apply trimStart_head.
  assert (Hrv : head_not_white (rev v)).
  { destruct (trimStart_split (rev u)) as [p [Hs _]]. fold v in Hs.
    apply (f_equal (@rev code_unit)) in Hs.
    rewrite rev_involutive, rev_app_distr in Hs.
    destruct (rev v) as [|c t]; [exact I|].
    rewrite Hs in Hu. exact Hu. }
  rewrite (trimStart_id (rev v) Hrv), rev_involutive.
  now rewrite (trimStart_id v Hv).
Qed.

(** ** DataManager: split('\\n') *)

Lemma split_lines_single (s : list code_unit) :
  ~ In LF s -> split_lines s = [s].
Proof.
  induction s as [|c s IH]; intro H; cbn [split_lines]; [reflexivity|].
  destruct (N.eqb_spec c LF) as [->|_]; [exfalso; apply H; now left|].
  rewrite IH; [reflexivity|]. intro Hin. apply H. now right.
Qed.

Lemma split_lines_cut (p t : list code_unit) :
  ~ In LF p -> split_lines (p ++ LF :: t) = p :: split_lines t.
Proof.
  induction p as [|c p IH]; intro H; cbn [List.app split_lines].
  - reflexivity.
  - destruct (N.eqb_spec c LF) as [->|_]; [exfalso; apply H; now left|].
    rewrite IH; [reflexivity|]. intro Hin. apply H. now right.
Qed.

Lemma split_lines_chars (s : list code_unit) :
  Forall (fun line => forall c, In c line -> In c s /\ c <> LF)
         (split_lines s).
Proof.
  induction s as [|a s IH]; cbn [split_lines].
  - constructor; [intros c []|constructor].
  - assert (Hweak : Forall (fun line => forall c,
                                In c line -> In c (a :: s) /\ c <> LF)
                           (split_lines s)).
    { revert IH. apply Forall_impl. intros line H c Hc.
      destruct (H c Hc). split; [now right|assumption]. }
    destruct (N.eqb_spec a LF) as [->|Ha].
    + constructor; [intros c []|exact Hweak].
    + destruct (split_lines s) as [|line lines].
      * constructor; [|constructor].
        intros c [<-|[]]. split; [now left|exact Ha].
      * inversion Hweak as [|? ? Hline Hlines]; subst.
        constructor; [|exact Hlines].
        intros c [<-|Hc]; [split; [now left|exact Ha] | now apply Hline].
Qed.

Lemma split_lines_join (lines : list (list code_unit)) :
  lines <> [] -> Forall (fun line => ~ In LF line) lines ->
  split_lines (join LF lines) = lines.
Proof.
  induction lines as [|line lines IH]; intros Hne Hall; [congruence|].
  inversion Hall as [|? ? Hline Hrest]; subst.
  destruct lines as [|line' lines].
  - cbn [join]. now apply split_lines_single.
  - change (join LF (line :: line' :: lines))
      with (line ++ LF :: join LF (line' :: lines)).
    rewrite (split_lines_cut _ _ Hline), IH; [reflexivity|discriminate|exact Hrest].
Qed.

(** ** DataManager: parseCSV *)

Lemma QUOTE_not_white : isWhiteSpace QUOTE = false.
Proof. reflexivity. Qed.

Lemma clean_trim (current : list code_unit) :
  ~ In QUOTE current -> ~ In LF current -> clean_field (trim current).
Proof.
  intros Hq Hl. repeat split.
  - intro H. apply Hq. now apply trim_In.
  - intro H. apply Hl. now apply trim_In.
  - apply trim_idempotent.
Qed.

Lemma parse_line_clean (line : list code_unit) :
  forall fields current inQuotes,
    (forall c, In c line -> c <> LF) ->
    Forall clean_field fields ->
    ~ In QUOTE current -> ~ In LF current ->
    Forall clean_field (parse_line line fields current inQuotes).
Proof.
  induction line as [|char rest IH]; intros fields current q Hline Hf Hq Hl;
    cbn [parse_line].
  - apply Forall_app. split; [exact Hf|].
    constructor; [now apply clean_trim|constructor].
  - assert (Hrest : forall c, In c rest -> c <> LF)
      by (intros c Hc; apply Hline; now right).
    destruct (N.eqb_spec char QUOTE) as [_|Hnq]; [now apply IH|].
    destruct (N.eqb char COMMA && negb q).
    + apply IH; try assumption; [|intros []|intros []].
      apply Forall_app. split; [exact Hf|].
      constructor; [now apply clean_trim|constructor].
    + apply IH; try assumption.
      * intro H. apply in_app_or in H. destruct H as [H|[H|[]]];
          [now apply Hq | now apply Hnq].
      * intro H. apply in_app_or in H. destruct H as [H|[H|[]]];
          [now apply Hl|]. apply (Hline char); [now left | now symmetry].
Qed.

Lemma parse_line_length (line : list code_unit) :
  forall fields current inQuotes,
    (List.length fields < List.length (parse_line line fields current inQuotes))%nat.
Proof.
  induction line as [|char rest IH]; intros fields current q; cbn [parse_line].
  - rewrite length_app. cbn. lia.
  - destruct (N.eqb char QUOTE); [apply IH|].
    destruct (N.eqb char COMMA && negb q); [|apply IH].
    specialize (IH (fields ++ [trim current]) [] q).
    rewrite length_app in IH. cbn in IH. lia.
Qed.

Lemma parse_line_commas (line : list code_unit) :
  ~ In QUOTE line ->
  forall fields current,
    List.length (parse_line line fields current false)
    = (List.length fields + 1 + count_occ N.eq_dec line COMMA)%nat.
Proof.
  induction line as [|char rest IH]; intros Hq fields current;
    cbn [parse_line count_occ].
  - rewrite length_app. cbn. lia.
  - assert (Hrest : ~ In QUOTE rest) by (intro H; apply Hq; now right).
    destruct (N.eqb_spec char QUOTE) as [->|_]; [exfalso; apply Hq; now left|].
    cbn [negb]. rewrite andb_true_r.
    destruct (N.eq_dec char COMMA) as [->|Hc].
    + rewrite N.eqb_refl, (IH Hrest), length_app. cbn. lia.
    + destruct (N.eqb_spec char COMMA) as [E|_]; [contradiction|].
      now rewrite (IH Hrest).
Qed.

Lemma parse_line_quoted (f : list code_unit) :
  ~ In QUOTE f ->
  forall rest fields current,
    parse_line (f ++ rest) fields current true
    = parse_line rest fields (current ++ f) true.
Proof.
  induction f as [|c f IH]; intros Hq rest fields current.
  - now rewrite app_nil_r.
  - cbn [List.app parse_line].
    destruct (N.eqb_spec c QUOTE) as [->|_]; [exfalso; apply Hq; now left|].
    cbn [negb]. rewrite andb_false_r.
    rewrite IH by (intro H; apply Hq; now right).
    now rewrite <- app_assoc.
Qed.

Lemma parse_line_quote_field (f rest : list code_unit)
  (fields : list (list code_unit)) :
  ~ In QUOTE f ->
  parse_line (quote_field f ++ rest) fields [] false
  = parse_line rest fields f false.
Proof.
  intro Hq. unfold quote_field.
  change ((QUOTE :: f ++ [QUOTE]) ++ rest)
    with (QUOTE :: (f ++ [QUOTE]) ++ rest).
  rewrite <- app_assoc. cbn [List.app].
  cbn [parse_line]. rewrite N.eqb_refl. cbn [negb].
  rewrite (parse_line_quoted f Hq). cbn [List.app parse_line].
  now rewrite N.eqb_refl.
Qed.

Lemma parse_line_write_row (fs : list (list code_unit)) :
  fs <> [] -> Forall clean_field fs ->
  forall acc, parse_line (write_row fs) acc [] false = acc ++ fs.
Proof.
  induction fs as [|f fs IH]; intros Hne Hall acc; [congruence|].
  inversion Hall as [|? ? [Hq [_ Ht]] Hrest]; subst.
  destruct fs as [|g fs].
  - unfold write_row. cbn [map join].
    rewrite <- (app_nil_r (quote_field f)), (parse_line_quote_field _ _ _ Hq).
    cbn [parse_line]. now rewrite Ht.
  - change (write_row (f :: g :: fs))
      with (quote_field f ++ COMMA :: write_row (g :: fs)).
    rewrite (parse_line_quote_field _ _ _ Hq).
    cbn [parse_line].
    change (N.eqb COMMA QUOTE) with false.
    rewrite N.eqb_refl. cbn [negb andb].
    rewrite IH, Ht, <- app_assoc; [reflexivity|discriminate|exact Hrest].
Qed.

Lemma write_row_chars (fs : list (list code_unit)) :
  Forall clean_field fs -> ~ In LF (write_row fs).
Proof.
  induction fs as [|f fs IH]; intro Hall; [intros []|].
  inversion Hall as [|? ? [_ [Hl _]] Hrest]; subst.
  assert (Hqf : ~ In LF (quote_field f)).
  { unfold quote_field. intros [H|H]; [discriminate H|].
    apply in_app_or in H. destruct H as [H|[H|[]]];
      [now apply Hl | discriminate H]. }
  destruct fs as [|g fs]; [exact Hqf|].
  change (write_row (f :: g :: fs))
    with (quote_field f ++ COMMA :: write_row (g :: fs)).
  intro H. apply in_app_or in H. destruct H as [H|[H|H]];
    [now apply Hqf | discriminate H | now apply (IH Hrest)].
Qed.

Lemma write_row_not_blank (fs : list (list code_unit)) :
  fs <> [] -> trim (write_row fs) <> [].
Proof.
  intro Hne.
  assert (Hin : In QUOTE (write_row fs)).
  { destruct fs as [|f fs]; [congruence|].
    destruct fs as [|g fs]; now left. }
  pose proof (trim_keeps _ _ Hin QUOTE_not_white) as H.
  intro E. now rewrite E in H.
Qed.

Lemma parse_lines_write (rows : list (list (list code_unit))) :
  Forall writable_row rows -> parse_lines (map write_row rows) = rows.
Proof.
  induction 1 as [|row rows [Hne Hclean] _ IH]; [reflexivity|].
  cbn [map parse_lines].
  destruct (trim (write_row row)) eqn:E;
    [now apply write_row_not_blank in E|].
  now rewrite (parse_line_write_row row Hne Hclean []), IH.
Qed.

Lemma parse_lines_blank (lines : list (list code_unit)) :
  Forall (fun line => trim line = []) lines -> parse_lines lines = [].
Proof.
  induction 1 as [|line lines Hline _ IH]; [reflexivity|].
  cbn [parse_lines]. now rewrite Hline.
Qed.

Lemma parse_lines_clean (lines : list (list code_unit)) :
  Forall (fun line => forall c, In c line -> c <> LF) lines ->
  Forall (fun row => row <> [] /\ Forall clean_field row) (parse_lines lines).
Proof.
  induction 1 as [|line lines Hline _ IH]; [constructor|].
  cbn [parse_lines]. destruct (trim line); [exact IH|].
  constructor; [|exact IH]. split.
  - intro E. pose proof (parse_line_length line [] [] false) as H.
    rewrite E in H. cbn in H. lia.
  - apply parse_line_clean; [exact Hline|constructor|intros []|intros []].
Qed.

(** X14.  Every row [parseCSV] returns has at least one field, and every
    field is free of quote characters and line feeds and has no white
    space at either end: the quotes are dropped, not kept or unescaped. *)
Theorem parseCSV_fields_clean (csvText : list code_unit)
  (fields : list (list code_unit)) :
  In fields (parseCSV csvText) ->
  fields <> []
  /\ forall field, In field fields ->
       ~ In QUOTE field /\ ~ In LF field /\ trim field = field.
Proof.
  intro Hin. unfold parseCSV in Hin.
  assert (Hlines : Forall (fun line => forall c, In c line -> c <> LF)
                          (split_lines csvText)).
  { generalize (split_lines_chars csvText). apply Forall_impl.
    intros line H c Hc. now destruct (H c Hc). }
  pose proof (parse_lines_clean _ Hlines) as Hall.
  rewrite Forall_forall in Hall. destruct (Hall fields Hin) as [Hne Hclean].
  split; [exact Hne|]. intros field Hf.
  rewrite Forall_forall in Hclean. exact (Hclean field Hf).
Qed.

(** X15.  [parseCSV] reads back what a quoting writer wrote: for rows of
    at least one field each, whose fields hold no quote and no line feed
    and have no white space at either end, writing every field between
    quotes, joining fields by commas and rows by line feeds, and parsing
    the text gives the rows again.  Commas inside the fields are kept. *)
Theorem parseCSV_write_csv (rows : list (list (list code_unit))) :
  Forall writable_row rows -> parseCSV (write_csv rows) = rows.
Proof.
  intro Hall. unfold parseCSV, write_csv.
  destruct rows as [|row rows]; [reflexivity|].
  rewrite split_lines_join.
  - now apply parse_lines_write.
  - discriminate.
  - apply Forall_map. revert Hall. apply Forall_impl.
    intros fs [_ Hclean]. now apply write_row_chars.
Qed.

(** X16.  A text of one line without quotes, not blank, parses to one row
    with one field more than the line has commas. *)
Theorem parseCSV_unquoted_line (line : list code_unit) :
  ~ In LF line -> ~ In QUOTE line -> trim line <> [] ->
  exists fields,
    parseCSV line = [fields]
    /\ List.length fields = S (count_occ N.eq_dec line COMMA).
Proof.
  intros Hl Hq Hblank. unfold parseCSV.
  rewrite (split_lines_single line Hl). cbn [parse_lines].
  destruct (trim line); [congruence|].
  eexists. split; [reflexivity|].
  rewrite (parse_line_commas line Hq). cbn. lia.
Qed.

(** X17.  A quote that is never closed swallows the rest of its line: the
    line is one field, commas included. *)
Theorem parseCSV_unclosed_quote (rest : list code_unit) :
  ~ In LF rest -> ~ In QUOTE rest ->
  parseCSV (QUOTE :: rest) = [[trim rest]].
Proof.
  intros Hl Hq. unfold parseCSV.
  rewrite split_lines_single
    by (intros [H|H]; [discriminate H | now apply Hl]).
  cbn [parse_lines].
  destruct (trim (QUOTE :: rest)) eqn:E.
  - assert (Hin : In QUOTE (trim (QUOTE :: rest)))
      by (apply trim_keeps; [now left | exact QUOTE_not_white]).
    now rewrite E in Hin.
  - cbn [parse_line]. rewrite N.eqb_refl. cbn [negb].
    pose proof (parse_line_quoted rest Hq [] [] []) as H.
    rewrite app_nil_r in H. rewrite H. reflexivity.
Qed.

(** X18.  A text of nothing but white space (spaces, tabs, line ends; the
    empty text too) parses to no rows at all. *)
Theorem parseCSV_blank (csvText : list code_unit) :
  Forall (fun c => isWhiteSpace c = true) csvText ->
  parseCSV csvText = [].
Proof.
  intro Hwhite. unfold parseCSV. apply parse_lines_blank.
  generalize (split_lines_chars csvText). apply Forall_impl.
  intros line H. apply trim_white. apply Forall_forall.
  intros c Hc. destruct (H c Hc) as [Hin _].
  rewrite Forall_forall in Hwhite. now apply Hwhite.
Qed.

(** ** The further properties at sample inputs *)

Lemma tetrahedron_counters_closed_form_witness :
  (0 <= 1 < 2)%nat
  /\ 2%nat = (tetrahedral (2 - 1) + triangular 1 + 0)%nat.
Proof.
  pose proof (tetrahedron_counters_closed_form
                (map (fun k => sample_item k "Alex Smith") (seq 1 10)) 2
                (mkCounters 2 1 0) eq_refl) as H.
  cbn [layer row col] in H. split; [apply H | apply H].
Defined.

Lemma tetrahedron_layout_injective_witness : 4%nat = 4%nat.
Proof.
  apply (tetrahedron_layout_injective
           (map (fun k => sample_item k "Alex Smith") (seq 1 10)) 4 4
           (place (mkCounters 3 0 0))); reflexivity.
Defined.

Lemma table_layout_injective_witness : 25%nat = 25%nat.
Proof.
  apply (table_layout_injective
           (map (fun k => sample_item k "Alex Smith") (seq 1 30)) 25 25
           (table_object 25)); reflexivity.
Defined.

Lemma grid_layout_injective_witness : 57%nat = 57%nat.
Proof.
  apply (grid_layout_injective
           (map (fun k => sample_item k "Alex Smith") (seq 1 60)) 57 57
           (grid_object 57)); reflexivity.
Defined.

Lemma table_layout_extent_witness :
  -1600 <= x (position (table_object 25)) <= 1440.
Proof.
  apply (table_layout_extent
           (map (fun k => sample_item k "Alex Smith") (seq 1 30)) 25
           (table_object 25)).
  reflexivity.
Defined.

Lemma sphere_layout_heights_witness :
  z (position (sphere_object flat_lookAt 5 1))
  < z (position (sphere_object flat_lookAt 5 3)).
Proof.
  apply (sphere_layout_heights flat_lookAt
           (map (fun k => sample_item k "Alex Smith") (seq 1 5)) 1 3
           (sphere_object flat_lookAt 5 1) (sphere_object flat_lookAt 5 3));
    [reflexivity | reflexivity | lia].
Defined.

Lemma helix_layout_on_cylinder_witness :
  y (position (helix_object flat_lookAt 5)) = 1250 - 30 * INR (5 / 2).
Proof.
  apply (helix_layout_on_cylinder flat_lookAt
           (map (fun k => sample_item k "Alex Smith") (seq 1 8)) 5
           (helix_object flat_lookAt 5)).
  reflexivity.
Defined.

Lemma helix_layout_strands_witness :
  y (position (helix_object flat_lookAt 5))
  = y (position (helix_object flat_lookAt 4)).
Proof.
  apply (helix_layout_strands flat_lookAt
           (map (fun k => sample_item k "Alex Smith") (seq 1 8)) 2
           (helix_object flat_lookAt 4) (helix_object flat_lookAt 5));
    reflexivity.
Defined.

Lemma transform_durations_witness :
  (forall k : nat, 0 <= always_half k < 1)
  /\ 0 < 2000
  /\ snd (transform always_half (Array (table (targets app_of_three))) 2000
            app_of_three)
     = Normal.
Proof.
  assert (Hr : forall k : nat, 0 <= always_half k < 1)
    by (intro k; unfold always_half; lra).
  assert (Hd : 0 < 2000) by lra.
  split; [exact Hr|]. split; [exact Hd|].
  apply (transform_durations always_half Hr
           (table (targets app_of_three)) 2000 app_of_three Hd).
  cbn. lia.
Defined.

Lemma createObjects_discards_old_state_witness :
  createObjects flat_lookAt always_half [sample_item 1 "Alex Smith"]
    app_of_three
  = createObjects flat_lookAt always_half [sample_item 1 "Alex Smith"]
      new_VisualizationApp.
Proof.
  apply (createObjects_discards_old_state flat_lookAt always_half
           [sample_item 1 "Alex Smith"] app_of_three new_VisualizationApp);
    reflexivity.
Defined.

Lemma changeLayout_after_createObjects_witness :
  exists arr : list Object3D,
    get_property
      (calculateLayouts flat_lookAt [sample_item 1 "Alex Smith"]) "helix"
    = Array arr
    /\ List.length arr = 1%nat.
Proof.
  destruct (changeLayout_after_createObjects flat_lookAt always_half
              [sample_item 1 "Alex Smith"] app_of_three "helix")
    as [arr [H1 [H2 _]]].
  - cbn [layout_kinds In]. right. right. left. reflexivity.
  - exists arr. split; [exact H1 | exact H2].
Defined.

Lemma placeholder_netWorth_class_witness :
  0 <= 1 / 2 < 1
  /\ getColorClass (placeholder_netWorth (9 / 10) (1 / 2))
     = if Rlt_dec (1 / 2 * 800000) 1 then "medium-worth" else "high-worth".
Proof.
  assert (Hr : 0 <= 1 / 2 < 1) by lra.
  split; [exact Hr|].
  apply (placeholder_netWorth_class (9 / 10) (1 / 2) Hr). lra.
Defined.

Lemma parseCSV_fields_clean_witness :
  [[97]; [98; 44; 99]]%N <> []
  /\ forall field, In field [[97]; [98; 44; 99]]%N ->
       ~ In QUOTE field /\ ~ In LF field /\ trim field = field.
Proof.
  apply (parseCSV_fields_clean [32; 97; 44; 34; 98; 44; 99; 34; 13]%N).
  vm_compute. left. reflexivity.
Defined.

Lemma parseCSV_write_csv_witness :
  parseCSV (write_csv [[[97]; [98; 44; 99]]; [[100; 32; 101]]]%N)
  = [[[97]; [98; 44; 99]]; [[100; 32; 101]]]%N.
Proof.
  apply (parseCSV_write_csv [[[97]; [98; 44; 99]]; [[100; 32; 101]]]%N).
  repeat constructor; try discriminate;
    cbn; intuition discriminate.
Defined.

Lemma parseCSV_unquoted_line_witness :
  exists fields,
    parseCSV [97; 44; 32; 98; 44]%N = [fields]
    /\ List.length fields = S (count_occ N.eq_dec [97; 44; 32; 98; 44]%N COMMA).
Proof.
  apply (parseCSV_unquoted_line [97; 44; 32; 98; 44]%N).
  - cbn. intuition discriminate.
  - cbn. intuition discriminate.
  - vm_compute. discriminate.
Defined.

Lemma parseCSV_unclosed_quote_witness :
  parseCSV (QUOTE :: [97; 44; 98]%N) = [[trim [97; 44; 98]%N]].
Proof.
  apply (parseCSV_unclosed_quote [97; 44; 98]%N).
  - cbn. intuition discriminate.
  - cbn. intuition discriminate.
Defined.

Lemma parseCSV_blank_witness : parseCSV [32; 10; 9; 13; 10]%N = [].
Proof.
  apply (parseCSV_blank [32; 10; 9; 13; 10]%N).
  repeat constructor.
Defined.
